(** * FileStructureGenerator: the file tree model and its four traversals

    A shallow embedding of [src/tree/file_tree_node.py] (class [FileTreeNode])
    together with the properties its specification states about it.

    Conventions of the embedding.
    - A Python exception is a value of [exn]; a call that may raise returns a
      [result].
    - A decoded JSON document is a [json] value; a Python [dict] with string
      keys is a [gmap string json], so that two dictionaries with the same
      items are equal whatever the order they were filled in.
    - The host functions the class only consumes ([json.dumps], [json.loads],
      [str.lower]) are the fields of the class [Host].
    - The file system is a tree of [fsnode]; a path is the list of its
      segments below the root of that tree.
    - A method that changes [self] returns the node as it is after the call;
      a method that only reads [self] returns no node.  A method that prints
      or writes files is a function on the [world]. *)

From stdpp Require Import base option list gmap strings pretty sorting.

#[local] Set Warnings "-register-all".
#[local] Open Scope string_scope.
#[local] Open Scope list_scope.

(** ** Exceptions and results *)

(** A path: the segments below the root of the modelled file system.
    [os.path.join dir_path item] appends one segment.  A segment is a plain
    name, as a listing reports it: not empty, not [.] or [..], without a
    separator. *)
Definition pathname := list string.

Inductive exn : Type :=
  | ValueError (msg : string)
  | KeyError (key : string)
  | TypeError
  | RecursionError
  | JSONDecodeError
  | FileExistsError (p : pathname)
  | FileNotFoundError (p : pathname)
  | IsADirectoryError (p : pathname)
  | NotADirectoryError (p : pathname).

Inductive result (A : Type) : Type :=
  | OK (a : A)
  | Raise (e : exn).
Arguments OK {A} a.
Arguments Raise {A} e.

#[global] Instance result_ret : MRet result := λ A, OK.
#[global] Instance result_bind : MBind result :=
  λ A B f r, match r with OK a => f a | Raise e => Raise e end.
#[global] Instance result_fmap : FMap result :=
  λ A B f r, match r with OK a => OK (f a) | Raise e => Raise e end.

(** ** JSON values, as [json.load] returns them *)

(** Of a number the class observes only whether it is zero and that it is
    not a string; numbers are integers here. *)

Inductive json : Type :=
  | JNull
  | JBool (b : bool)
  | JNum (z : Z)
  | JStr (s : string)
  | JList (l : list json)
  | JObj (m : gmap string json).

(** Python truthiness of a decoded value: [None], [False], [0], the empty
    string, the empty list and the empty dict are false. *)
Definition truthy (v : json) : bool :=
  match v with
  | JNull => false
  | JBool b => b
  | JNum z => negb (Z.eqb z 0)
  | JStr s => negb (String.eqb s "")
  | JList l => match l with [] => false | _ :: _ => true end
  | JObj m => negb (bool_decide (m = ∅))
  end.

(** [d[key]] on a dict: [KeyError] when the key is absent. *)
Definition getitem (m : gmap string json) (key : string) : result json :=
  match m !! key with
  | Some v => OK v
  | None => Raise (KeyError key)
  end.

(** ** The node *)

(** [FileTreeNode]: [name], [type] and [children].  The annotation of [name]
    is [str]; the constructor stores whatever it is given, so the type of
    names is a parameter: [node] is the annotated class, and a document being
    decoded yields a [FileTreeNode json]. *)
Inductive FileTreeNode (N : Type) : Type :=
  Node { name : N; type : string; children : list (FileTreeNode N) }.
Arguments Node {N} name type children.
Arguments name {N} f.
Arguments type {N} f.
Arguments children {N} f.

Abbreviation node := (FileTreeNode string).

(** The name as a JSON value, [str] to JSON string. *)
Fixpoint dyn (t : node) : FileTreeNode json :=
  match t with
  | Node nm ty cs => Node (JStr nm) ty (dyn <$> cs)
  end.

(** [FileTreeNode.__init__] when no [file_path] is given (lines 31-41):
    [type_str] is compared with the two literals, a file must come with
    [children is None]. *)
Definition FileTreeNode_new {N} (name : N) (type_str : json)
    (children : option (list (FileTreeNode N))) : result (FileTreeNode N) :=
  match type_str with
  | JStr ty =>
      if negb (bool_decide (ty ∈ ["file"; "directory"])) then
        Raise (ValueError "Type must be 'file' or 'directory'")
      else if String.eqb ty "file" && bool_decide (children ≠ None) then
        Raise (ValueError "Files must not contain children")
      else
        OK (Node name ty (default [] children))
  | _ => Raise (ValueError "Type must be 'file' or 'directory'")
  end.

(** The invariant of the data model: the kind is one of the two literals and
    a file has no children, at every node. *)
Fixpoint valid {N} (t : FileTreeNode N) : bool :=
  match t with
  | Node _ ty cs =>
      bool_decide (ty ∈ ["file"; "directory"])
      && (negb (String.eqb ty "file") || bool_decide (length cs = 0))
      && forallb valid cs
  end.

(** ** Codec *)

(** [node_to_dict] (lines 69-78): [children] is the list of encoded children
    when the node has some, and [None] otherwise. *)
Fixpoint node_to_dict (n : FileTreeNode json) : json :=
  match n with
  | Node nm ty cs =>
      JObj {[ "name" := nm;
              "type" := JStr ty;
              "children" := match cs with
                            | _ :: _ => JList (node_to_dict <$> cs)
                            | [] => JNull
                            end ]}
  end.

(** What the conditional expression of lines 88-92 does with the value found
    under ["children"], given the decoder for the elements.  A true value
    that is not a list cannot be iterated into dicts: a number or [True] is
    not iterable, and iterating a string or a dict yields strings, which
    [node_dict["name"]] rejects; each is a [TypeError]. *)
Definition decode_children (dict_to_node : json → result (FileTreeNode json))
    (v : json) : result (option (list (FileTreeNode json))) :=
  if truthy v then
    match v with
    | JList l => Some <$> mapM dict_to_node l
    | _ => Raise TypeError
    end
  else OK None.

(** [dict_to_node] (lines 85-93).  The lookup of ["children"] is written on
    the map of decoded values so that the recursion is structural;
    [dict_to_node_eq] below gives the equation in the shape of the source. *)
Fixpoint dict_to_node (node_dict : json) : result (FileTreeNode json) :=
  match node_dict with
  | JObj m =>
      name ← getitem m "name";
      type_str ← getitem m "type";
      children ← default (Raise (KeyError "children"))
                   ((decode_children dict_to_node <$> m) !! "children");
      FileTreeNode_new name type_str children
  | _ => Raise TypeError
  end.

(** ** The host interface *)

Class Host := {
  (** [str.lower] *)
  str_lower : string → string;
  (** [json.dumps(_, ensure_ascii=False, indent=4, sort_keys=True)] *)
  json_dumps : json → string;
  (** [json.loads] / [json.load] *)
  json_loads : string → result json;
}.

Section Codec.
Context `{Host}.

(** [__serialize] (lines 68-82) *)
Definition serialize (self : node) : string :=
  json_dumps (node_to_dict (dyn self)).

(** [__deserialize] applied to the parsed text, as [__load_from_file]
    does (lines 111-114). *)
Definition deserialize (text : string) : result (FileTreeNode json) :=
  data ← json_loads text;
  dict_to_node data.
End Codec.

(** ** The file system *)

(** An entry of the file system: a regular file with its text, a directory
    with its entries in the order [os.listdir] reports them, or a device
    node (such as [/dev/null]: it exists, it is neither a directory nor a
    regular file, and what is written to it is discarded). *)
Inductive fsnode : Type :=
  | FsFile (content : string)
  | FsDir (entries : list (string * fsnode))
  | FsDevice.

(** [s.startswith(p)] and [s.endswith(p)] *)
Definition startswith (s p : string) : bool := String.prefix p s.
Definition endswith (s p : string) : bool :=
  String.prefix (String.rev p) (String.rev s).

(** The text of a path in messages; the root of the model is ["."]. *)
Definition path_str (p : pathname) : string :=
  match p with
  | [] => "."
  | _ :: _ => String.concat "/" p
  end.

Module os.

(** The entry called [n] of a directory. *)
Fixpoint lookup_entry (n : string) (es : list (string * fsnode))
    : option fsnode :=
  match es with
  | [] => None
  | (n', sub) :: es' => if String.eqb n n' then Some sub else lookup_entry n es'
  end.

(** Replace the entry called [n]. *)
Fixpoint set_entry (n : string) (sub : fsnode)
    (es : list (string * fsnode)) : list (string * fsnode) :=
  match es with
  | [] => []
  | (n', old) :: es' =>
      if String.eqb n n' then (n', sub) :: es'
      else (n', old) :: set_entry n sub es'
  end.

(** What a path names, if anything. *)
Fixpoint resolve (fs : fsnode) (p : pathname) : option fsnode :=
  match p with
  | [] => Some fs
  | n :: p' =>
      match fs with
      | FsDir es =>
          match lookup_entry n es with
          | Some sub => resolve sub p'
          | None => None
          end
      | _ => None
      end
  end.

Module path.
Definition join (dir_path : pathname) (item : string) : pathname :=
  dir_path ++ [item].

Definition exists_ (fs : fsnode) (p : pathname) : bool :=
  match resolve fs p with Some _ => true | None => false end.

Definition isdir (fs : fsnode) (p : pathname) : bool :=
  match resolve fs p with Some (FsDir _) => true | _ => false end.

Definition isfile (fs : fsnode) (p : pathname) : bool :=
  match resolve fs p with Some (FsFile _) => true | _ => false end.
End path.

Definition listdir (fs : fsnode) (p : pathname) : result (list string) :=
  match resolve fs p with
  | Some (FsDir es) => OK (es.*1)
  | Some _ => Raise (NotADirectoryError p)
  | None => Raise (FileNotFoundError p)
  end.

(** A chain of new, empty directories. *)
Fixpoint fresh_dirs (p : pathname) : fsnode :=
  match p with
  | [] => FsDir []
  | n :: p' => FsDir [(n, fresh_dirs p')]
  end.

(** [os.makedirs(p)] with [exist_ok] left at its default [False]: the
    missing directories of the path are created, and the call raises
    [FileExistsError] when the path itself already exists. *)
Fixpoint makedirs_from (whole : pathname) (fs : fsnode) (p : pathname)
    : result fsnode :=
  match p with
  | [] => Raise (FileExistsError whole)
  | n :: p' =>
      match fs with
      | FsDir es =>
          match lookup_entry n es with
          | Some sub =>
              sub' ← makedirs_from whole sub p';
              OK (FsDir (set_entry n sub' es))
          | None => OK (FsDir (es ++ [(n, fresh_dirs p')]))
          end
      | _ => Raise (NotADirectoryError whole)
      end
  end.

Definition makedirs (fs : fsnode) (p : pathname) : result fsnode :=
  makedirs_from p fs p.

(** [open(p, "w")] followed by [write(text)]: the file is created in an
    existing directory or truncated. *)
Fixpoint write_from (whole : pathname) (fs : fsnode) (p : pathname)
    (text : string) : result fsnode :=
  match p with
  | [] =>
      match fs with
      | FsFile _ => OK (FsFile text)
      | FsDir _ => Raise (IsADirectoryError whole)
      | FsDevice => OK FsDevice
      end
  | n :: p' =>
      match fs with
      | FsDir es =>
          match lookup_entry n es with
          | Some sub =>
              sub' ← write_from whole sub p' text;
              OK (FsDir (set_entry n sub' es))
          | None =>
              match p' with
              | [] => OK (FsDir (es ++ [(n, FsFile text)]))
              | _ :: _ => Raise (FileNotFoundError whole)
              end
          end
      | _ => Raise (NotADirectoryError whole)
      end
  end.

Definition write_text (fs : fsnode) (p : pathname) (text : string)
    : result fsnode :=
  write_from p fs p text.

(** [open(p, "r")] followed by [read()]. *)
Definition read_text (fs : fsnode) (p : pathname) : result string :=
  match resolve fs p with
  | Some (FsFile text) => OK text
  | Some (FsDir _) => Raise (IsADirectoryError p)
  | Some FsDevice => OK ""
  | None => Raise (FileNotFoundError p)
  end.

(** The greatest number of nested directories. *)
Fixpoint height (fs : fsnode) : nat :=
  match fs with
  | FsDir es => S (foldr (λ e h, max (height e.2) h) 0 es)
  | _ => 0
  end.

End os.

(** ** Scanner *)

(** [self.children.append(child)] for each of [new], in order. *)
Definition append_children {N} (self : FileTreeNode N)
    (new : list (FileTreeNode N)) : FileTreeNode N :=
  Node (name self) (type self) (children self ++ new).

(** [build_from_directory] (lines 45-64).  [limit] is the depth of calls the
    interpreter allows; [RecursionError] beyond it.  The loop of line 59
    runs over every child the node then has, and calls each with
    [add_hidden] left at its default. *)
Fixpoint build_from_directory (limit : nat) (fs : fsnode) (self : node)
    (dir_path : pathname) (add_hidden : bool) : result node :=
  match limit with
  | 0 => Raise RecursionError
  | S limit =>
      if negb (os.path.isdir fs dir_path) then
        Raise (ValueError ("Path '" +:+ path_str dir_path +:+
                           "' does not point to a directory."))
      else
        items ← os.listdir fs dir_path;
        let items :=
          if negb add_hidden
          then List.filter (λ item, negb (startswith item ".")) items
          else items in
        let dirs :=
          List.filter (λ item, os.path.isdir fs (os.path.join dir_path item))
                      items in
        new_dirs ← mapM (λ dir, FileTreeNode_new dir (JStr "directory") None)
                        dirs;
        let self := append_children self new_dirs in
        scanned ← mapM (λ child,
                     build_from_directory limit fs child
                       (os.path.join dir_path (name child)) false)
                   (children self);
        let self := Node (name self) (type self) scanned in
        let files :=
          List.filter (λ item, os.path.isfile fs (os.path.join dir_path item))
                      items in
        new_files ← mapM (λ file, FileTreeNode_new file (JStr "file") None)
                         files;
        OK (append_children self new_files)
  end.

(** The entries a scan considers (lines 50-53). *)
Definition listed (es : list (string * fsnode)) (add_hidden : bool)
    : list string :=
  if negb add_hidden
  then List.filter (λ item, negb (startswith item ".")) es.*1
  else es.*1.

(** No node below the root has a name that starts with a dot. *)
Fixpoint no_hidden_below (t : node) : bool :=
  match t with
  | Node _ _ cs =>
      forallb (λ c, negb (startswith (name c) ".") && no_hidden_below c) cs
  end.

(** ** Effects: the file system and the standard output *)

Record world : Type := World {
  files : fsnode;
  cwd : pathname;
  stdout : list string;
}.

(** A call that reads and changes the world and may raise; what was done
    before an exception stays done. *)
Definition io (A : Type) : Type := world → result A * world.

#[global] Instance io_ret : MRet io := λ A a w, (OK a, w).
#[global] Instance io_bind : MBind io :=
  λ A B f c w,
    match c w with
    | (OK a, w') => f a w'
    | (Raise e, w') => (Raise e, w')
    end.

Definition raise {A} (e : exn) : io A := λ w, (Raise e, w).

Definition print (line : string) : io unit :=
  λ w, (OK (), World (files w) (cwd w) (stdout w ++ [line])).

(** A query of the file system. *)
Definition stat {A} (f : fsnode → A) : io A := λ w, (OK (f (files w)), w).

(** A call that changes the file system or raises. *)
Definition update (f : fsnode → result fsnode) : io unit :=
  λ w,
    match f (files w) with
    | OK fs' => (OK (), World fs' (cwd w) (stdout w))
    | Raise e => (Raise e, w)
    end.

Definition getcwd : io pathname := λ w, (OK (cwd w), w).

(** [for x in l: body(x)] *)
Fixpoint for_each {A} (body : A → io unit) (l : list A) : io unit :=
  match l with
  | [] => mret ()
  | x :: l' => body x;; for_each body l'
  end.

(** ** Persistence *)

Section Persistence.
Context `{Host}.

(** [save_to_file] (lines 99-109) *)
Definition save_to_file (self : node) (file_path : pathname)
    (overwrite : bool) : io unit :=
  there ← stat (λ fs, os.path.exists_ fs file_path
                      && os.path.isfile fs file_path);
  if there && negb overwrite then
    print ("File '" +:+ path_str file_path +:+
           "' already exists. Use --overwrite to overwrite it.")
  else
    update (λ fs, os.write_text fs file_path (serialize self));;
    print ("File tree saved to " +:+ path_str file_path).

(** [__load_from_file] (lines 111-114) *)
Definition load_from_file (fs : fsnode) (file_path : pathname)
    : result (FileTreeNode json) :=
  text ← os.read_text fs file_path;
  deserialize text.

(** [FileTreeNode.__init__] (lines 10-41).  [file_path] is [None] when the
    argument is left out; a path of the model is never the empty string,
    so [Some _] is the true case of line 19. *)
Definition FileTreeNode_init (fs : fsnode) (name type_str : json)
    (children : option (list (FileTreeNode json)))
    (file_path : option pathname) : result (FileTreeNode json) :=
  match file_path with
  | Some file_path =>
      if negb (os.path.exists_ fs file_path) then
        Raise (ValueError ("File '" +:+ path_str file_path +:+
                           "' does not exist."))
      else if negb (os.path.isfile fs file_path)
              || negb (endswith (str_lower (path_str file_path)) ".json")
      then
        Raise (ValueError ("'" +:+ path_str file_path +:+
                           "' does not point to a JSON file."))
      else
        deserialized_tree ← load_from_file fs file_path;
        let '(Node name type children) := deserialized_tree in
        OK (Node name type children)
  | None => FileTreeNode_new name type_str children
  end.
End Persistence.

(** ** Materializer *)

(** [create_template_copy] (lines 118-144).  The recursive call of line 137
    passes the directory just made and leaves [overwrite] at its default. *)
Fixpoint create_template_copy (self : node)
    (destination_path : option pathname) (overwrite : bool) : io unit :=
  destination_path ← match destination_path with
                     | None => getcwd
                     | Some p => mret p
                     end;
  let root_path := os.path.join destination_path (name self) in
  there ← stat (λ fs, os.path.exists_ fs root_path);
  if there && negb overwrite then
    print ("Path '" +:+ path_str root_path +:+
           "' already exists. Skipping creation.")
  else if String.eqb (type self) "directory" then
    update (λ fs, os.makedirs fs root_path);;
    for_each (λ child, create_template_copy child (Some root_path) false)
             (children self)
  else if String.eqb (type self) "file" then
    update (λ fs, os.write_text fs root_path "This is an empty template file")
  else
    raise (ValueError ("Unknown type '" +:+ type self +:+ "' for node '" +:+
                       name self +:+
                       "'. Expected 'file' or 'directory'.")).

(** ** Renderer *)

(** [sorted(l, key=key)]: the stable sort by [<] on the keys.  Each element
    is put before the first element of the sorted rest that is not smaller
    than it, so elements with equal keys keep their order. *)
Section Sorted.
Context {A K : Type} (lt : K → K → bool) (key : A → K).

Fixpoint insert_sorted (x : A) (l : list A) : list A :=
  match l with
  | [] => [x]
  | y :: l' =>
      if lt (key y) (key x) then y :: insert_sorted x l' else x :: l
  end.

Definition sorted (l : list A) : list A := foldr insert_sorted [] l.

(** [x] may stand before [y]: the key of [y] is not smaller. *)
Definition not_after (x y : A) : Prop := lt (key y) (key x) = false.
End Sorted.

(** [<] on the tuples [(bool, str)]: the first components decide unless they
    are equal; [False < True]; strings compare by code point, which is the
    order of the bytes of their UTF-8 text. *)
Definition bool_lt (a b : bool) : bool := negb a && b.
Definition str_lt (a b : string) : bool := negb (String.leb b a).
Definition tuple_lt (a b : bool * string) : bool :=
  if negb (Bool.eqb a.1 b.1) then bool_lt a.1 b.1
  else if negb (String.eqb a.2 b.2) then str_lt a.2 b.2
  else false.

(** [a <= b] on the keys: [False] before [True], then the strings. *)
Definition tuple_le (a b : bool * string) : Prop :=
  (a.1 = false ∧ b.1 = true) ∨ (a.1 = b.1 ∧ String.le a.2 b.2).

Definition connector_last : string := "  â””â”€".
Definition connector_inner : string := "  â”œâ”€".
Definition file_icon : string := "ğŸ“„ ".
Definition directory_icon : string := "ğŸ“ ".
Definition prefix_last : string := "   ".
Definition prefix_inner : string := "  â”‚".

Section Renderer.
Context `{Host}.

(** The key of line 168. *)
Definition sort_key {N} (name_of : N → string) (x : FileTreeNode N)
    : bool * string :=
  (negb (String.eqb (type x) "directory"), str_lower (name_of (name x))).

(** The children in the order they are displayed. *)
Definition sorted_children (self : node) : list node :=
  sorted tuple_lt (sort_key id) (children self).

(** [print_tree] (lines 148-179): the lines printed, in order.  Each child
  is paired with the call on it before the pairs are sorted by the key of
  the child, which keeps the recursion structural; [print_tree_eq] gives
  the equation over [sorted_children]. *)
Fixpoint print_tree (self : node) (indent : nat)
    (print_hidden is_last_child : bool) (prefix : string) : list string :=
  match self with
  | Node nm ty cs =>
      if negb print_hidden && startswith nm "." then []
      else
        let connector :=
          if is_last_child then connector_last else connector_inner in
        if String.eqb ty "file" then
          [prefix +:+ connector +:+ file_icon +:+ nm]
        else if String.eqb ty "directory" then
          let new_prefix :=
            prefix +:+ (if is_last_child then prefix_last else prefix_inner) in
          let sorted_children :=
            sorted tuple_lt (λ x, sort_key id x.1)
                   ((λ child, (child, print_tree child)) <$> cs) in
          (prefix +:+ connector +:+ directory_icon +:+ nm)
          :: concat (imap (λ i (x : node * _),
                       let is_last_child :=
                         Nat.eqb i (length sorted_children - 1) in
                       x.2 (indent + 1) print_hidden is_last_child new_prefix)
                     sorted_children)
        else []
  end.
End Renderer.

(** ** Statements about documents *)

(** A document that mentions the node object [j] in a position the decoder
    visits: the document itself, or an element of the [children] array of an
    object it visits. *)
Inductive visits : json → json → Prop :=
  | visits_here j : visits j j
  | visits_child m l c j :
      m !! "children" = Some (JList l) → c ∈ l → visits c j →
      visits (JObj m) j.

(** A node object lacking a required key, or whose [type] is not one of the
    two literals. *)
Definition malformed (j : json) : Prop :=
  ∃ m, j = JObj m ∧
    (m !! "name" = None ∨ m !! "type" = None ∨ m !! "children" = None ∨
     ∃ v, m !! "type" = Some v ∧ v ≠ JStr "file" ∧ v ≠ JStr "directory").

(** ** Statements about the file system and about trees *)

(** What [fs'] keeps of an entry [x] that [fs] has at [q]: a file or a
    device is there unchanged; a directory is still a directory. *)
Definition kept (x : fsnode) (fs' : fsnode) (q : pathname) : Prop :=
  match x with
  | FsDir _ => os.path.isdir fs' q = true
  | _ => os.resolve fs' q = Some x
  end.

(** [fs'] keeps every entry of [fs] at a path that satisfies [P]. *)
Definition keeps (P : pathname → Prop) (fs fs' : fsnode) : Prop :=
  ∀ q x, P q → os.resolve fs q = Some x → kept x fs' q.

(** [fs'] keeps every entry of [fs]. *)
Definition grows (fs fs' : fsnode) : Prop := keeps (λ _, True) fs fs'.

(** [fs'] keeps every entry of [fs] but, possibly, the one at [p]. *)
Definition grows_but (p : pathname) (fs fs' : fsnode) : Prop :=
  keeps (λ q, q ≠ p) fs fs'.

(** On worlds: the file system grows and the working directory stays. *)
Definition world_grows (w w' : world) : Prop :=
  grows (files w) (files w') ∧ cwd w' = cwd w.


(** The files and directories of a tree: a directory per directory node,
    with one entry per child in the order of the children, and a file with
    the text of line 140 per other node. *)
Fixpoint skeleton (t : node) : fsnode :=
  match t with
  | Node _ ty cs =>
      if String.eqb ty "directory"
      then FsDir ((λ c, (name c, skeleton c)) <$> cs)
      else FsFile "This is an empty template file"
  end.

(** The number of nodes of a tree. *)
Fixpoint node_count {N} (t : FileTreeNode N) : nat :=
  match t with
  | Node _ _ cs => S (sum_list (node_count <$> cs))
  end.




(** ** Sample data *)

(** [str.lower] on the ASCII letters. *)
Definition ascii_lower (c : Ascii.ascii) : Ascii.ascii :=
  let n := Ascii.nat_of_ascii c in
  if (65 <=? n)%nat && (n <=? 90)%nat then Ascii.ascii_of_nat (n + 32) else c.

Fixpoint lower (s : string) : string :=
  match s with
  | EmptyString => EmptyString
  | String c s' => String (ascii_lower c) (lower s')
  end.

Definition sample_tree : node :=
  Node "project" "directory"
    [Node "b.txt" "file" [];
     Node "A" "directory" [Node "notes.md" "file" []];
     Node "a.txt" "file" []].

(** A document with a child object that has no [type]. *)
Definition broken_document : json :=
  JObj {[ "name" := JStr "project";
          "type" := JStr "directory";
          "children" := JList [JObj {[ "name" := JStr "x" ]}] ]}.

(** A compact printer of JSON values (no escapes). *)
Definition quoted (s : string) : string :=
  let q := String (Ascii.ascii_of_nat 34) "" in q +:+ s +:+ q.

Fixpoint compact (v : json) : string :=
  match v with
  | JNull => "null"
  | JBool b => if b then "true" else "false"
  | JNum z => pretty z
  | JStr s => quoted s
  | JList l => "[" +:+ String.concat ", " (compact <$> l) +:+ "]"
  | JObj m =>
      "{" +:+ String.concat ", "
                ((λ kv, quoted kv.1 +:+ ": " +:+ kv.2)
                 <$> map_to_list (compact <$> m)) +:+ "}"
  end.

(** A host with that printer and a parser that knows the text of the two
    documents. *)
Definition sample_host : Host := {|
  str_lower := lower;
  json_dumps := compact;
  json_loads := λ text,
    if String.eqb text (compact (node_to_dict (dyn sample_tree)))
    then OK (node_to_dict (dyn sample_tree))
    else if String.eqb text (compact broken_document)
    then OK broken_document
    else Raise JSONDecodeError;
|}.

(** A directory with a hidden file, and a sub-directory with another. *)
Definition hidden_fs : fsnode :=
  FsDir [("sub", FsDir [(".secret", FsFile ""); ("visible.txt", FsFile "")]);
         (".secret", FsFile "");
         ("visible.txt", FsFile "")].

(** A directory that lists a file, a directory, a file, a directory. *)
Definition listing_fs : fsnode :=
  FsDir [("z.txt", FsFile "");
         ("b", FsDir [("n.txt", FsFile "")]);
         ("y.txt", FsFile "");
         ("a", FsDir [])].

(** A destination in which [project] and [out] are directories and
    [tree.json] is a file. *)
Definition used_world : world := {|
  files := FsDir [("project", FsDir [("old.txt", FsFile "kept")]);
                  ("out", FsDir []);
                  ("tree.json", FsFile "{}")];
  cwd := [];
  stdout := [];
|}.

(** A tree as a scan returns it. *)
Definition scanned_tree : node :=
  Node "project" "directory"
    [Node "A" "directory" [Node "notes.md" "file" []];
     Node "a.txt" "file" [];
     Node "b.txt" "file" []].

(** A host with the printer and a parser that knows the text of that tree. *)
Definition scanned_host : Host := {|
  str_lower := lower;
  json_dumps := compact;
  json_loads := λ text,
    if String.eqb text (compact (node_to_dict (dyn scanned_tree)))
    then OK (node_to_dict (dyn scanned_tree))
    else Raise JSONDecodeError;
|}.

(** An empty directory, nothing printed yet. *)
Definition empty_world : world := {|
  files := FsDir [];
  cwd := [];
  stdout := [];
|}.

(** A tree whose last child in the order of display has a hidden name. *)
Definition dotfile_tree : node :=
  Node "project" "directory"
    [Node ".env" "file" [];
     Node "src" "directory" [Node "main.py" "file" []]].

(** ** Properties of the codec *)

Lemma dict_to_node_eq (m : gmap string json) :
  dict_to_node (JObj m) =
    (name ← getitem m "name";
     type_str ← getitem m "type";
     children ← (v ← getitem m "children"; decode_children dict_to_node v);
     FileTreeNode_new name type_str children).
Proof.
  cbn [dict_to_node]. rewrite lookup_fmap. unfold getitem.
  destruct (m !! "name"); [|done]. destruct (m !! "type"); [|done].
  by destruct (m !! "children").
Qed.

Lemma result_bind_OK {A B} (a : A) (f : A → result B) : OK a ≫= f = f a.
Proof. reflexivity. Qed.

(** Induction on a node with the property available for every child. *)
Lemma FileTreeNode_ind' {N} (P : FileTreeNode N → Prop) :
  (∀ nm ty cs, Forall P cs → P (Node nm ty cs)) → ∀ t, P t.
Proof.
  intros step. fix rec 1. intros [nm ty cs]. apply step.
  induction cs as [|c cs IH]; constructor; [apply rec | exact IH].
Qed.

Lemma valid_Node {N} (nm : N) ty cs :
  valid (Node nm ty cs) = true ↔
    ty ∈ ["file"; "directory"] ∧ (ty = "file" → cs = []) ∧
    Forall (λ c, valid c = true) cs.
Proof.
  cbn [valid]. rewrite !andb_true_iff, orb_true_iff, negb_true_iff.
  rewrite !bool_decide_eq_true, forallb_forall, Forall_forall.
  rewrite String.eqb_neq, length_zero_iff_nil.
  setoid_rewrite <-list_elem_of_In.
  split.
  - intros [[Hty Hcs] Hall]. split_and!; [done| |done].
    intros ->. by destruct Hcs.
  - intros (Hty & Hcs & Hall). split_and!; [done| |done].
    destruct (decide (ty = "file")); auto.
Qed.

Lemma valid_dyn (t : node) : valid (dyn t) = valid t.
Proof.
  induction t as [nm ty cs IH] using FileTreeNode_ind'. cbn [dyn valid].
  rewrite length_fmap. f_equal.
  induction IH as [|c cs Hc _ IHcs]; [done|]. cbn. by rewrite Hc, IHcs.
Qed.

Section mapM_result.
Context {A B : Type} (f : A → result B).

Lemma mapM_OK_fmap {C} (g : C → A) (h : C → B) (l : list C) :
  Forall (λ c, f (g c) = OK (h c)) l → mapM f (g <$> l) = OK (h <$> l).
Proof.
  induction 1 as [|c l Hc _ IH]; [done|].
  cbn. rewrite Hc. cbn. by rewrite IH.
Qed.

Lemma mapM_OK_inv (l : list A) (k : list B) :
  mapM f l = OK k → Forall2 (λ x y, f x = OK y) l k.
Proof.
  revert k. induction l as [|x l IH]; intros k; cbn.
  - intros [= <-]. constructor.
  - destruct (f x) as [y|] eqn:Hx; cbn; [|done].
    destruct (mapM f l) as [k'|]; cbn; [|done].
    intros [= <-]. constructor; auto.
Qed.

Lemma mapM_OK_elem (l : list A) (k : list B) (x : A) :
  mapM f l = OK k → x ∈ l → ∃ y, y ∈ k ∧ f x = OK y.
Proof.
  intros Hk%mapM_OK_inv [i Hi]%list_elem_of_lookup.
  destruct (Forall2_lookup_l _ _ _ _ _ Hk Hi) as (y & Hy & Hxy).
  exists y. split; [by eapply list_elem_of_lookup_2|done].
Qed.
End mapM_result.

(** A tree is determined by its image with JSON names. *)
Lemma dyn_inj (t u : node) : dyn t = dyn u → t = u.
Proof.
  revert u. induction t as [nm ty cs IH] using FileTreeNode_ind'.
  intros [nm' ty' cs']. cbn [dyn]. intros [= -> -> Hcs]. f_equal.
  revert cs' Hcs. induction IH as [|c cs Hc _ IHcs]; intros [|c' cs'];
    cbn; try done.
  intros [= Hd Hcs]. f_equal; auto.
Qed.

(** The exception for a key that is missing: the keys are read in the
    order [name], [type], [children]. *)
Lemma dict_to_node_missing_key (m : gmap string json) :
  (m !! "name" = None → dict_to_node (JObj m) = Raise (KeyError "name"))
  ∧ (is_Some (m !! "name") → m !! "type" = None →
     dict_to_node (JObj m) = Raise (KeyError "type"))
  ∧ (is_Some (m !! "name") → is_Some (m !! "type") →
     m !! "children" = None →
     dict_to_node (JObj m) = Raise (KeyError "children")).
Proof.
  rewrite dict_to_node_eq. unfold getitem. split_and!.
  - by intros ->.
  - by intros [? ->] ->.
  - by intros [? ->] [? ->] ->.
Qed.

(** Decoding a dict with exactly the three items [node_to_dict] writes. *)
Lemma dict_to_node_items (nm ty v : json) :
  dict_to_node (JObj {[ "name" := nm; "type" := ty; "children" := v ]}) =
    (children ← decode_children dict_to_node v;
     FileTreeNode_new nm ty children).
Proof. by rewrite dict_to_node_eq. Qed.

(** The decoder inverts the encoder on every tree that satisfies the
    invariant. *)
Lemma dict_to_node_node_to_dict (t : FileTreeNode json) :
  valid t = true → dict_to_node (node_to_dict t) = OK t.
Proof.
  induction t as [nm ty cs IH] using FileTreeNode_ind'.
  intros (Hty & Hfile & Hcs)%valid_Node.
  cbn [node_to_dict]. rewrite dict_to_node_items.
  assert (bool_decide (ty ∈ ["file"; "directory"]) = true) as Hin
    by by apply bool_decide_eq_true.
  destruct cs as [|c cs].
  - cbn. by rewrite Hin, andb_false_r.
  - assert (mapM dict_to_node (node_to_dict <$> c :: cs) = OK (c :: cs)) as Hm.
    { rewrite <-(list_fmap_id (c :: cs)) at 2. apply mapM_OK_fmap.
      rewrite Forall_forall in *. intros x Hx. apply IH; auto. }
    unfold decode_children. cbn [truthy fmap list_fmap].
    cbn [fmap list_fmap] in Hm. rewrite Hm. cbn. rewrite Hin. cbn.
    destruct (String.eqb_spec ty "file") as [->|_]; [|done].
    by specialize (Hfile eq_refl).
Qed.

(** A kind other than the two literals is refused. *)
Lemma FileTreeNode_new_bad_type {N} (nm : N) type_str children :
  type_str ≠ JStr "file" → type_str ≠ JStr "directory" →
  FileTreeNode_new nm type_str children
  = Raise (ValueError "Type must be 'file' or 'directory'").
Proof.
  intros Hf Hd. unfold FileTreeNode_new.
  destruct type_str as [| | |ty| |]; try done.
  case_bool_decide as Hty; [|done].
  apply elem_of_cons in Hty as [->|Hty]; [done|].
  apply elem_of_cons in Hty as [->|Hty]; [done|]. by apply elem_of_nil in Hty.
Qed.

(** What a successful construction tells. *)
Lemma FileTreeNode_new_OK {N} (nm : N) type_str children n :
  FileTreeNode_new nm type_str children = OK n →
  ∃ ty, type_str = JStr ty ∧ ty ∈ ["file"; "directory"] ∧
        (ty = "file" → children = None) ∧
        n = Node nm ty (default [] children).
Proof.
  unfold FileTreeNode_new. destruct type_str as [| | |ty| |]; try done.
  case_bool_decide as Hty; [|done]. cbn.
  destruct (String.eqb_spec ty "file") as [->|Hne]; cbn.
  - case_bool_decide as Hc; [done|]. intros [= <-].
    exists "file". split_and!; try done.
  - intros [= <-]. by exists ty.
Qed.

Lemma decode_children_OK f v children :
  decode_children f v = OK children →
  (truthy v = false ∧ children = None) ∨
  (∃ l k, v = JList l ∧ l ≠ [] ∧ mapM f l = OK k ∧ children = Some k).
Proof.
  unfold decode_children. destruct (truthy v) eqn:Hv.
  - destruct v as [| | | |l|]; try done.
    destruct (mapM f l) as [k|] eqn:Hk; [|done]. cbn. intros [= <-].
    right. exists l, k. split_and!; try done. by intros ->.
  - intros [= <-]. by left.
Qed.

Lemma dict_to_node_OK (j : json) (n : FileTreeNode json) :
  dict_to_node j = OK n →
  ∃ m nm ty v children,
    j = JObj m ∧ m !! "name" = Some nm ∧ m !! "type" = Some ty ∧
    m !! "children" = Some v ∧
    decode_children dict_to_node v = OK children ∧
    FileTreeNode_new nm ty children = OK n.
Proof.
  destruct j as [| | | | |m]; try done.
  rewrite dict_to_node_eq. unfold getitem.
  destruct (m !! "name") as [nm|] eqn:Hnm; [|done]. cbn.
  destruct (m !! "type") as [ty|] eqn:Hty; [|done]. cbn.
  destruct (m !! "children") as [v|] eqn:Hv; [|done]. cbn.
  destruct (decode_children dict_to_node v) as [children|] eqn:Hc; [|done].
  cbn. intros Hn. by exists m, nm, ty, v, children.
Qed.

(** Every tree the decoder returns satisfies the invariant. *)
Lemma FileTreeNode_new_valid {N} (nm : N) type_str children n :
  FileTreeNode_new nm type_str children = OK n →
  Forall (λ c, valid c = true) (default [] children) →
  valid n = true.
Proof.
  intros (ty & -> & Hty & Hfile & ->)%FileTreeNode_new_OK Hcs.
  apply valid_Node. split_and!; try done.
  intros Hf. by rewrite (Hfile Hf).
Qed.

Lemma dict_to_node_valid (j : json) (n : FileTreeNode json) :
  dict_to_node j = OK n → valid n = true.
Proof.
  revert j. induction n as [nm ty cs IH] using FileTreeNode_ind'.
  intros j (m & nm' & ty' & v & children & -> & _ & _ & _ & Hc & Hn)
    %dict_to_node_OK.
  eapply FileTreeNode_new_valid; [done|].
  apply FileTreeNode_new_OK in Hn as (? & _ & _ & _ & [= _ _ ->]).
  apply decode_children_OK in Hc as [[_ ->]|(l & k & _ & _ & Hk & ->)].
  - constructor.
  - cbn in *. apply mapM_OK_inv in Hk. revert IH.
    induction Hk as [|j1 n1 l1 k1 H1 _ IHk]; intros IH; [constructor|].
    inversion_clear IH. constructor; eauto.
Qed.

(** ** The codec: round trip, malformed documents, empty arrays *)

Section CodecProperties.
Context `{Host}.

Lemma deserialize_loaded (text : string) (data : json) :
  json_loads text = OK data → deserialize text = dict_to_node data.
Proof. unfold deserialize. by intros ->. Qed.

(** A malformed node object where the decoder starts raises. *)
Lemma dict_to_node_malformed_here (j : json) :
  malformed j → ∃ e, dict_to_node j = Raise e.
Proof.
  intros (m & -> & Hm). rewrite dict_to_node_eq. unfold getitem.
  destruct (m !! "name") as [nm|]; [cbn|by eexists].
  destruct (m !! "type") as [ty|] eqn:Hty; [cbn|by eexists].
  destruct (m !! "children") as [v|]; [cbn|by eexists].
  destruct Hm as [?|[?|[?|(ty' & [= <-] & Hf & Hd)]]]; try done.
  destruct (decode_children dict_to_node v) as [children|]; [cbn|by eexists].
  rewrite FileTreeNode_new_bad_type by done. by eexists.
Qed.

(** A document the decoder accepts mentions no malformed node object. *)
Lemma dict_to_node_OK_well_formed (data j : json) (n : FileTreeNode json) :
  visits data j → dict_to_node data = OK n → ¬ malformed j.
Proof.
  intros Hv. revert n. induction Hv as [j|m l c j Hl Hc _ IH]; intros n Hn.
  - intros [e He]%dict_to_node_malformed_here. congruence.
  - apply dict_to_node_OK in Hn
      as (m' & nm & ty & v & children & [= <-] & _ & _ & Hv & Hdec & _).
    rewrite Hl in Hv. injection Hv as <-.
    apply decode_children_OK in Hdec
      as [[Ht _]|(l' & k & [= <-] & _ & Hk & _)].
    + destruct l; [by apply elem_of_nil in Hc|done].
    + destruct (mapM_OK_elem _ _ _ _ Hk Hc) as (y & _ & Hy). eauto.
Qed.
End CodecProperties.

(** C1.  Decoding the text that [serialize] produces for a tree satisfying
    the invariant (every kind is ["file"] or ["directory"], no file has
    children) gives back the same tree: the same names, the same kinds and
    the children in the same order at every node.  The host is asked for one
    thing: [json.loads] returns the document [json.dumps] was given. *)
Theorem deserialize_serialize_roundtrip `{Host} (t : node) :
  valid t = true →
  json_loads (json_dumps (node_to_dict (dyn t))) = OK (node_to_dict (dyn t)) →
  deserialize (serialize t) = OK (dyn t).
Proof.
  intros Ht Hhost. unfold serialize.
  rewrite (deserialize_loaded _ _ Hhost).
  apply dict_to_node_node_to_dict. by rewrite valid_dyn.
Qed.

Lemma deserialize_serialize_roundtrip_witness :
  valid sample_tree = true ∧
  @deserialize sample_host (@serialize sample_host sample_tree)
  = OK (dyn sample_tree).
Proof.
  split; [reflexivity|].
  apply (@deserialize_serialize_roundtrip sample_host sample_tree);
    reflexivity.
Defined.

(** C7.  The constructor raises [ValueError] when the kind is not one of the
    two literals, and when the kind is ["file"] and a children list is
    given; so a node it returns has one of the two kinds, has no children
    when it is a file, and satisfies the invariant throughout when the
    children it was given do. *)
Theorem FileTreeNode_init_invariant `{Host} (fs : fsnode)
    (nm type_str : json) (given : option (list (FileTreeNode json))) :
  (type_str ≠ JStr "file" → type_str ≠ JStr "directory" →
   FileTreeNode_init fs nm type_str given None
   = Raise (ValueError "Type must be 'file' or 'directory'"))
  ∧ (∀ cs, FileTreeNode_init fs nm (JStr "file") (Some cs) None
           = Raise (ValueError "Files must not contain children"))
  ∧ (∀ file_path n,
       FileTreeNode_init fs nm type_str given file_path = OK n →
       type n ∈ ["file"; "directory"]
       ∧ (type n = "file" → children n = [])
       ∧ (Forall (λ c, valid c = true) (default [] given) →
          valid n = true)).
Proof.
  split_and!.
  - intros Hf Hd. by apply FileTreeNode_new_bad_type.
  - done.
  - intros file_path n. unfold FileTreeNode_init.
    destruct file_path as [file_path|].
    + destruct (negb _); [done|]. destruct (_ || _); [done|].
      destruct (load_from_file fs file_path) as [[nm' ty cs]|] eqn:Hl; [|done].
      cbn. intros [= <-]. unfold load_from_file in Hl.
      destruct (os.read_text fs file_path) as [text|]; [|done]. cbn in Hl.
      unfold deserialize in Hl.
      destruct (json_loads text) as [data|]; [|done]. cbn in Hl.
      apply dict_to_node_valid in Hl as Hvalid.
      apply valid_Node in Hvalid as (? & ? & ?). split_and!; try done.
      intros _. by apply valid_Node.
    + intros Hn. pose proof (FileTreeNode_new_valid _ _ _ _ Hn) as Hvalid.
      apply FileTreeNode_new_OK in Hn as (ty & -> & Hty & Hfile & ->).
      split_and!; try done. cbn. intros Hf. by rewrite (Hfile Hf).
Qed.

Lemma FileTreeNode_init_invariant_witness :
  @FileTreeNode_init sample_host (FsDir []) (JStr "x") (JStr "folder")
     None None
  = Raise (ValueError "Type must be 'file' or 'directory'")
  ∧ type (Node (JStr "x") "directory" []) ∈ ["file"; "directory"].
Proof.
  destruct (@FileTreeNode_init_invariant sample_host (FsDir []) (JStr "x")
              (JStr "folder") None) as (Hkind & _ & _).
  destruct (@FileTreeNode_init_invariant sample_host (FsDir []) (JStr "x")
              (JStr "directory") None) as (_ & _ & Hinv).
  split; [by apply Hkind|].
  by apply (Hinv None (Node (JStr "x") "directory" [])).
Defined.

(** C8.  A document in which some node object the decoder reaches (the
    document itself, or an element of a [children] array at any depth) lacks
    one of the keys [name], [type], [children], or has a [type] other than
    the two literals, is never decoded into a node: [deserialize] raises.
    The document with the single key [name] raises [KeyError] for [type]. *)
Theorem deserialize_malformed_raises `{Host} (text : string) (data j : json) :
  json_loads text = OK data →
  (visits data j → malformed j → ∃ e, deserialize text = Raise e)
  ∧ (data = JObj {[ "name" := JStr "x" ]} →
     deserialize text = Raise (KeyError "type")).
Proof.
  intros Hdata. rewrite (deserialize_loaded _ _ Hdata). split.
  - intros Hv Hj. destruct (dict_to_node data) as [n|e] eqn:Hn; [|by eexists].
    by destruct (dict_to_node_OK_well_formed _ _ _ Hv Hn).
  - by intros ->.
Qed.

Lemma deserialize_malformed_raises_witness :
  ∃ e, @deserialize sample_host (compact broken_document) = Raise e.
Proof.
  apply (proj1 (@deserialize_malformed_raises sample_host
                  (compact broken_document) broken_document
                  (JObj {[ "name" := JStr "x" ]}) eq_refl)).
  - eapply (visits_child _ [JObj {[ "name" := JStr "x" ]}]).
    + reflexivity.
    + apply list_elem_of_here.
    + apply visits_here.
  - exists {[ "name" := JStr "x" ]}. split; [reflexivity|].
    right. left. reflexivity.
Defined.

(** C10.  An empty [children] array is decoded as [None] is: the two
    documents give the same result, a node decoded from an object whose
    [children] is the empty array has no children, and a ["file"] object
    with the empty array is accepted. *)
Theorem deserialize_empty_children_as_null (m : gmap string json) :
  dict_to_node (JObj (<["children" := JList []]> m))
  = dict_to_node (JObj (<["children" := JNull]> m))
  ∧ (∀ n, m !! "children" = Some (JList []) →
          dict_to_node (JObj m) = OK n → children n = [])
  ∧ (∀ nm, m !! "name" = Some nm → m !! "type" = Some (JStr "file") →
           m !! "children" = Some (JList []) →
           dict_to_node (JObj m) = OK (Node nm "file" [])).
Proof.
  split_and!.
  - rewrite !dict_to_node_eq. unfold getitem.
    rewrite !(lookup_insert_ne _ "children" "name") by done.
    rewrite !(lookup_insert_ne _ "children" "type") by done.
    by rewrite !lookup_insert_eq.
  - intros n Hc (m' & nm & ty & v & children & [= <-] & _ & _ & Hv & Hdec & Hn)
      %dict_to_node_OK.
    rewrite Hc in Hv. injection Hv as <-. cbn in Hdec. injection Hdec as <-.
    by apply FileTreeNode_new_OK in Hn as (? & _ & _ & _ & ->).
  - intros nm Hnm Hty Hc. rewrite dict_to_node_eq. unfold getitem.
    by rewrite Hnm, Hty, Hc.
Qed.

Lemma deserialize_empty_children_as_null_witness :
  dict_to_node
    (JObj {[ "name" := JStr "x"; "type" := JStr "file";
             "children" := JList [] ]})
  = OK (Node (JStr "x") "file" []).
Proof.
  exact (proj2 (proj2 (deserialize_empty_children_as_null
                         {[ "name" := JStr "x"; "type" := JStr "file";
                            "children" := JList [] ]}))
           (JStr "x") eq_refl eq_refl eq_refl).
Defined.

(** ** The scanner *)

Section mapM_more.
Context {A B : Type} (f : A → result B).

Lemma mapM_OK_pure (h : A → B) (l : list A) :
  (∀ x, f x = OK (h x)) → mapM f l = OK (h <$> l).
Proof.
  intros Hf. induction l as [|x l IH]; [done|].
  cbn. rewrite Hf. cbn. by rewrite IH.
Qed.

Lemma mapM_result_fmap {C} (g : C → A) (l : list C) :
  mapM f (g <$> l) = mapM (f ∘ g) l.
Proof. induction l as [|x l IH]; [done|]. cbn. by rewrite IH. Qed.

Lemma mapM_OK_total (l : list A) :
  Forall (λ x, ∃ y, f x = OK y) l → ∃ k, mapM f l = OK k.
Proof.
  induction 1 as [|x l [y Hy] _ [k Hk]]; [by exists []|].
  exists (y :: k). cbn. rewrite Hy. cbn. by rewrite Hk.
Qed.
End mapM_more.

Lemma resolve_app (fs : fsnode) (p q : pathname) :
  os.resolve fs (p ++ q) = os.resolve fs p ≫= λ d, os.resolve d q.
Proof.
  revert fs. induction p as [|n p IH]; intros fs; [done|].
  cbn. destruct fs as [|es|]; try done.
  destruct (os.lookup_entry n es); [apply IH|done].
Qed.

Lemma lookup_entry_elem (n : string) (es : list (string * fsnode)) sub :
  os.lookup_entry n es = Some sub → (n, sub) ∈ es.
Proof.
  induction es as [|[n' sub'] es IH]; [done|]. cbn.
  destruct (String.eqb_spec n n') as [->|_].
  - intros [= ->]. apply elem_of_cons. by left.
  - intros Hn. apply elem_of_cons. right. auto.
Qed.

Lemma height_entry (n : string) (es : list (string * fsnode)) sub :
  (n, sub) ∈ es → os.height sub < os.height (FsDir es).
Proof.
  cbn. induction es as [|e es IH]; intros He.
  - by apply elem_of_nil in He.
  - apply elem_of_cons in He as [<-|He]; cbn; [lia|].
    specialize (IH He). lia.
Qed.

(** A sub-directory found by name is less high than its parent. *)
Lemma isdir_join (fs : fsnode) (p : pathname) (es : list (string * fsnode))
    (item : string) :
  os.resolve fs p = Some (FsDir es) →
  os.path.isdir fs (os.path.join p item) = true →
  ∃ es', os.resolve fs (os.path.join p item) = Some (FsDir es') ∧
         os.height (FsDir es') < os.height (FsDir es).
Proof.
  intros Hp. unfold os.path.isdir, os.path.join.
  rewrite resolve_app, Hp. cbn.
  destruct (os.lookup_entry item es) as [[|es'|]|] eqn:Hitem; try done.
  intros _. exists es'. split; [done|].
  exact (height_entry item es (FsDir es') (lookup_entry_elem _ _ _ Hitem)).
Qed.

(** The two nodes the scanner constructs (lines 57 and 64). *)
Lemma FileTreeNode_new_directory {N} (nm : N) :
  FileTreeNode_new nm (JStr "directory") None = OK (Node nm "directory" []).
Proof. reflexivity. Qed.

Lemma FileTreeNode_new_file {N} (nm : N) :
  FileTreeNode_new nm (JStr "file") None = OK (Node nm "file" []).
Proof. reflexivity. Qed.

Section Scan.
Context (fs : fsnode).

(** One call on a node without children: the sub-directories are scanned
    one level below, the files follow. *)
Lemma build_from_directory_step (limit : nat) (self : node)
    (dir_path : pathname) (add_hidden : bool) es :
  children self = [] →
  os.resolve fs dir_path = Some (FsDir es) →
  build_from_directory (S limit) fs self dir_path add_hidden =
    (scanned ← mapM (λ dir,
                  build_from_directory limit fs (Node dir "directory" [])
                    (os.path.join dir_path dir) false)
               (List.filter
                  (λ item, os.path.isdir fs (os.path.join dir_path item))
                  (listed es add_hidden));
     OK (Node (name self) (type self)
           (scanned ++
            ((λ file, Node file "file" []) <$>
             List.filter
               (λ item, os.path.isfile fs (os.path.join dir_path item))
               (listed es add_hidden))))).
Proof.
  intros Hfresh Hdir. cbn [build_from_directory].
  unfold os.path.isdir at 1, os.listdir. rewrite Hdir. cbn [negb mbind].
  unfold result_bind at 1. fold (listed es add_hidden).
  rewrite (mapM_OK_pure
             (λ dir, FileTreeNode_new dir (JStr "directory") None)
             (λ dir, Node dir "directory" []))
    by apply FileTreeNode_new_directory.
  rewrite result_bind_OK. unfold append_children. cbn [children name type].
  rewrite Hfresh, app_nil_l, mapM_result_fmap. unfold compose. cbn [name].
  rewrite (mapM_OK_pure
             (λ file, FileTreeNode_new file (JStr "file") None)
             (λ file, Node file "file" []))
    by apply FileTreeNode_new_file.
  by destruct (mapM (λ dir, build_from_directory _ _ _ _ _) _).
Qed.

(** With a limit no less than the height of the directory, the scan of a
    node without children returns. *)
Lemma build_from_directory_returns (limit : nat) (self : node)
    (dir_path : pathname) (add_hidden : bool) es :
  children self = [] →
  os.resolve fs dir_path = Some (FsDir es) →
  (os.height (FsDir es) ≤ limit)%nat →
  ∃ n, build_from_directory limit fs self dir_path add_hidden = OK n.
Proof.
  revert self dir_path add_hidden es.
  induction limit as [|limit IH]; intros self dir_path add_hidden es
    Hfresh Hdir Hheight; [cbn in Hheight; lia|].
  rewrite (build_from_directory_step _ _ _ _ es) by done.
  edestruct (mapM_OK_total
    (λ dir, build_from_directory limit fs (Node dir "directory" [])
              (os.path.join dir_path dir) false)) as [scanned ->].
  - apply Forall_forall. intros dir [_ Hisdir]%list_elem_of_In%filter_In.
    destruct (isdir_join _ _ _ _ Hdir Hisdir) as (es' & Hes' & Hlt).
    eapply IH; [done|done|lia].
  - by eexists.
Qed.
(** What a scan that returns has left in a node without children. *)
Lemma build_from_directory_children (limit : nat) (self : node)
    (dir_path : pathname) (add_hidden : bool) es (n : node) :
  children self = [] →
  os.resolve fs dir_path = Some (FsDir es) →
  build_from_directory limit fs self dir_path add_hidden = OK n →
  ∃ populated : list node,
    n = Node (name self) (type self)
          (populated ++
           ((λ file, Node file "file" []) <$>
            List.filter
              (λ item, os.path.isfile fs (os.path.join dir_path item))
              (listed es add_hidden)))
    ∧ Forall2 (λ dir child,
         build_from_directory (pred limit) fs (Node dir "directory" [])
           (os.path.join dir_path dir) false = OK child
         ∧ name child = dir ∧ type child = "directory")
        (List.filter
           (λ item, os.path.isdir fs (os.path.join dir_path item))
           (listed es add_hidden))
        populated.
Proof.
  intros Hfresh Hdir Hn. destruct limit as [|limit]; [done|].
  rewrite (build_from_directory_step _ _ _ _ es) in Hn by done.
  destruct (mapM _ _) as [populated|] eqn:Hpop; [|done].
  injection Hn as <-. exists populated. split; [done|]. cbn [pred].
  apply mapM_OK_inv in Hpop.
  eapply Forall2_impl; [exact Hpop|]. cbn. intros dir child Hchild.
  split; [done|].
  assert (∃ es', os.resolve fs (os.path.join dir_path dir) = Some (FsDir es'))
    as [es' Hes'].
  { destruct limit; [done|]. cbn [build_from_directory] in Hchild.
    unfold os.path.isdir in Hchild.
    destruct (os.resolve fs (os.path.join dir_path dir)) as [[|es'|]|];
      try done. by exists es'. }
  destruct limit as [|limit]; [done|].
  rewrite (build_from_directory_step _ _ _ _ es') in Hchild by done.
  destruct (mapM _ _) in Hchild; [|done]. by injection Hchild as <-.
Qed.

(** A scan that returns was given a directory. *)
Lemma build_from_directory_isdir (limit : nat) (self : node)
    (dir_path : pathname) (add_hidden : bool) (n : node) :
  build_from_directory limit fs self dir_path add_hidden = OK n →
  ∃ es, os.resolve fs dir_path = Some (FsDir es).
Proof.
  destruct limit as [|limit]; [done|]. cbn [build_from_directory].
  unfold os.path.isdir.
  destruct (os.resolve fs dir_path) as [[|es|]|]; try done. by exists es.
Qed.

(** Without [add_hidden], no name below the root starts with a dot. *)
Lemma build_from_directory_no_hidden (limit : nat) (self : node)
    (dir_path : pathname) (n : node) :
  children self = [] →
  build_from_directory limit fs self dir_path false = OK n →
  no_hidden_below n = true.
Proof.
  revert self dir_path n.
  induction limit as [|limit IH]; intros self dir_path n Hfresh Hn; [done|].
  destruct (build_from_directory_isdir _ _ _ _ _ Hn) as [es Hes].
  destruct (build_from_directory_children _ _ _ _ _ _ Hfresh Hes Hn)
    as (populated & -> & Hpop).
  cbn [no_hidden_below pred] in *. rewrite forallb_app. apply andb_true_iff.
  split.
  - apply forallb_forall. intros child [i Hi]%list_elem_of_In%list_elem_of_lookup.
    destruct (Forall2_lookup_r _ _ _ _ _ Hpop Hi) as (dir & Hdir & Hc & <- & _).
    apply list_elem_of_lookup_2, list_elem_of_In, filter_In in Hdir
      as [Hdir _].
    unfold listed in Hdir. cbn [negb] in Hdir.
    apply filter_In in Hdir as [_ Hvisible]. rewrite Hvisible. cbn.
    eapply IH; [|exact Hc]. done.
  - apply forallb_forall.
    intros child (file & -> & Hfile)%list_elem_of_In%list_elem_of_fmap.
    apply list_elem_of_In, filter_In in Hfile as [Hfile _].
    unfold listed in Hfile. cbn [negb] in Hfile.
    apply filter_In in Hfile as [_ Hvisible]. cbn [name].
    by rewrite Hvisible.
Qed.
End Scan.

(** C3.  Scanning a directory into a node without children returns
    whenever the limit on nested calls is no less than the height of the
    directory, and every scan that returns leaves, as the children of the
    node: first one directory node for each sub-directory, in the order of
    the listing, each the result of scanning that sub-directory into a new
    node; then one file node for each regular file, in the order of the
    listing.  Nothing is sorted. *)
Theorem build_from_directory_order (limit : nat) (fs : fsnode) (self : node)
    (dir_path : pathname) (add_hidden : bool) (es : list (string * fsnode)) :
  children self = [] →
  os.resolve fs dir_path = Some (FsDir es) →
  let items :=
    if negb add_hidden
    then List.filter (λ item, negb (startswith item ".")) es.*1
    else es.*1 in
  let dirs :=
    List.filter (λ item, os.path.isdir fs (os.path.join dir_path item)) items in
  let files :=
    List.filter (λ item, os.path.isfile fs (os.path.join dir_path item)) items in
  ((os.height (FsDir es) ≤ limit)%nat →
   ∃ n, build_from_directory limit fs self dir_path add_hidden = OK n)
  ∧ (∀ n, build_from_directory limit fs self dir_path add_hidden = OK n →
       ∃ populated : list node,
         n = Node (name self) (type self)
               (populated ++ ((λ file, Node file "file" []) <$> files))
         ∧ Forall2 (λ dir child,
              build_from_directory (pred limit) fs (Node dir "directory" [])
                (os.path.join dir_path dir) false = OK child
              ∧ name child = dir ∧ type child = "directory")
             dirs populated).
Proof.
  intros Hfresh Hdir items dirs files. split.
  - intros Hheight. by eapply build_from_directory_returns.
  - intros n Hn. by eapply build_from_directory_children.
Qed.

Lemma build_from_directory_order_witness :
  ∃ n, build_from_directory 2 hidden_fs (Node "root" "directory" []) [] false
       = OK n.
Proof.
  apply (build_from_directory_order 2 hidden_fs (Node "root" "directory" [])
           [] false
           [("sub", FsDir [(".secret", FsFile ""); ("visible.txt", FsFile "")]);
            (".secret", FsFile ""); ("visible.txt", FsFile "")]).
  - reflexivity.
  - reflexivity.
  - cbn. lia.
Defined.

(** Sub-directories [b], [a] and files [z.txt], [y.txt], as listed. *)
Example build_from_directory_listing_order :
  build_from_directory 2 listing_fs (Node "root" "directory" []) [] false
  = OK (Node "root" "directory"
          [Node "b" "directory" [Node "n.txt" "file" []];
           Node "a" "directory" [];
           Node "z.txt" "file" [];
           Node "y.txt" "file" []]).
Proof. reflexivity. Qed.

(** Without [add_hidden] no entry whose name starts with a dot is kept. *)
Example build_from_directory_hidden_skipped :
  build_from_directory 2 hidden_fs (Node "root" "directory" []) [] false
  = OK (Node "root" "directory"
          [Node "sub" "directory" [Node "visible.txt" "file" []];
           Node "visible.txt" "file" []]).
Proof. reflexivity. Qed.

(** C2.  With [add_hidden] set, the hidden file of the scanned directory is
    kept and the hidden file of its sub-directory is dropped: the call of
    line 60 does not pass the flag on.  (Without the flag the entries are
    dropped at every depth: [build_from_directory_no_hidden].) *)
Theorem build_from_directory_add_hidden_below :
  build_from_directory 2 hidden_fs (Node "root" "directory" []) [] true
  = OK (Node "root" "directory"
          [Node "sub" "directory" [Node "visible.txt" "file" []];
           Node ".secret" "file" [];
           Node "visible.txt" "file" []]).
Proof. reflexivity. Qed.

(** ** Persistence and materialization *)

(** Run the first steps of a call on the world. *)
Ltac io_steps :=
  unfold mbind, io_bind, stat, update, os.makedirs, os.path.join in *; cbn.

Lemma isfile_exists (fs : fsnode) (p : pathname) :
  os.path.isfile fs p = true → os.path.exists_ fs p = true.
Proof.
  unfold os.path.isfile, os.path.exists_. by destruct (os.resolve fs p).
Qed.

(** [os.makedirs] refuses a path that exists. *)
Lemma makedirs_from_exists (whole : pathname) (fs : fsnode) (p : pathname) :
  os.path.exists_ fs p = true →
  os.makedirs_from whole fs p = Raise (FileExistsError whole).
Proof.
  unfold os.path.exists_. revert fs.
  induction p as [|n p IH]; intros fs; [done|]. cbn.
  destruct fs as [|es|]; try done.
  destruct (os.lookup_entry n es) as [sub|]; [|done].
  intros Hsub. by rewrite IH.
Qed.

(** A directory node whose target exists is not materialized, whatever the
    flag: with [overwrite] the call raises, and the world is as before. *)
Lemma create_template_copy_directory_exists (self : node)
    (destination_path : option pathname) (w : world) :
  let root_path :=
    os.path.join (default (cwd w) destination_path) (name self) in
  type self = "directory" →
  os.path.exists_ (files w) root_path = true →
  create_template_copy self destination_path true w
  = (Raise (FileExistsError root_path), w).
Proof.
  destruct self as [nm ty cs], w as [fs wd out]. cbn. intros -> Hthere.
  destruct destination_path as [p|]; cbn in *.
  all: io_steps; rewrite Hthere; cbn; by rewrite makedirs_from_exists.
Qed.

(** C4.  Materializing a directory node with [overwrite] set where its
    target is an existing directory raises [FileExistsError] from
    [os.makedirs]; nothing is written and the entries of the directory stay. *)
Theorem create_template_copy_overwrite_existing_directory :
  create_template_copy sample_tree None true used_world
  = (Raise (FileExistsError ["project"]), used_world).
Proof. reflexivity. Qed.

(** C5, as stated, fails where the path is an existing directory: the call
    is not skipped, [open] raises. *)
Lemma save_to_file_existing_directory_raises :
  os.path.exists_ (files used_world) ["out"] = true
  ∧ @save_to_file sample_host sample_tree ["out"] false used_world
    = (Raise (IsADirectoryError ["out"]), used_world).
Proof. split; reflexivity. Qed.

(** C5.  Where the path is an existing regular file and [overwrite] is not
    set, [save_to_file] returns without raising, prints that the file
    already exists, and leaves the file system as it was. *)
Theorem save_to_file_existing_file_skipped `{Host} (self : node)
    (file_path : pathname) (w : world) :
  os.path.isfile (files w) file_path = true →
  save_to_file self file_path false w
  = (OK (),
     World (files w) (cwd w)
       (stdout w ++ ["File '" +:+ path_str file_path +:+
                     "' already exists. Use --overwrite to overwrite it."])).
Proof.
  intros Hfile. unfold save_to_file. io_steps.
  by rewrite Hfile, (isfile_exists _ _ Hfile).
Qed.

Lemma save_to_file_existing_file_skipped_witness :
  @save_to_file sample_host sample_tree ["tree.json"] false used_world
  = (OK (),
     World (files used_world) []
       ["File 'tree.json' already exists. Use --overwrite to overwrite it."]).
Proof.
  apply (@save_to_file_existing_file_skipped sample_host sample_tree
           ["tree.json"] used_world).
  reflexivity.
Defined.

(** C6.  Where the target of a node exists and [overwrite] is not set,
    [create_template_copy] prints that it skips the path and returns: the
    file system is as before, and no child is visited. *)
Theorem create_template_copy_existing_skipped (self : node)
    (destination_path : option pathname) (w : world) :
  let root_path :=
    os.path.join (default (cwd w) destination_path) (name self) in
  os.path.exists_ (files w) root_path = true →
  create_template_copy self destination_path false w
  = (OK (),
     World (files w) (cwd w)
       (stdout w ++ ["Path '" +:+ path_str root_path +:+
                     "' already exists. Skipping creation."])).
Proof.
  destruct self as [nm ty cs], w as [fs wd out]. cbn. intros Hthere.
  destruct destination_path as [p|]; cbn in *.
  all: io_steps; by rewrite Hthere.
Qed.

Lemma create_template_copy_existing_skipped_witness :
  create_template_copy sample_tree None false used_world
  = (OK (),
     World (files used_world) []
       ["Path 'project' already exists. Skipping creation."]).
Proof.
  apply (create_template_copy_existing_skipped sample_tree None used_world).
  reflexivity.
Defined.

(** ** The renderer *)

(** *** [sorted] is a stable sort *)

Section SortedFacts.
Context {A K : Type} (lt : K → K → bool) (key : A → K).
Hypothesis lt_irrefl : ∀ a, lt a a = false.
Hypothesis lt_asym : ∀ a b, lt a b = true → lt b a = false.

Lemma insert_sorted_Permutation (x : A) (l : list A) :
  insert_sorted lt key x l ≡ₚ x :: l.
Proof.
  induction l as [|y l IH]; [done|]. cbn.
  destruct (lt (key y) (key x)); [|done].
  rewrite IH. apply Permutation_swap.
Qed.

Lemma sorted_Permutation (l : list A) : sorted lt key l ≡ₚ l.
Proof.
  induction l as [|x l IH]; [done|]. cbn.
  by rewrite insert_sorted_Permutation, IH.
Qed.

Lemma insert_sorted_Sorted (x : A) (l : list A) :
  Sorted (not_after lt key) l → Sorted (not_after lt key) (insert_sorted lt key x l).
Proof.
  induction 1 as [|y l Hl IH Hhd]; cbn; [by repeat constructor|].
  destruct (lt (key y) (key x)) eqn:Hyx.
  - constructor; [done|]. destruct Hhd as [|z l Hyz]; cbn.
    + constructor. by apply lt_asym.
    + destruct (lt (key z) (key x)); constructor; [done|].
      by apply lt_asym.
  - by repeat constructor.
Qed.

Lemma sorted_Sorted (l : list A) : Sorted (not_after lt key) (sorted lt key l).
Proof.
  induction l as [|x l IH]; [constructor|].
  by apply insert_sorted_Sorted.
Qed.

(** Stability: the elements with a given key are in the order they had. *)
Lemma insert_sorted_stable `{!EqDecision K} (k : K) (x : A) (l : list A) :
  filter (λ y, key y = k) (insert_sorted lt key x l)
  = filter (λ y, key y = k) (x :: l).
Proof.
  induction l as [|y l IH]; [done|]. cbn.
  destruct (lt (key y) (key x)) eqn:Hyx; [|done].
  rewrite !filter_cons, IH, !filter_cons.
  destruct (decide (key y = k)) as [Hy|]; [|done].
  destruct (decide (key x = k)) as [Hx|]; [|done].
  rewrite Hy, Hx, lt_irrefl in Hyx. done.
Qed.

Lemma sorted_stable `{!EqDecision K} (k : K) (l : list A) :
  filter (λ y, key y = k) (sorted lt key l) = filter (λ y, key y = k) l.
Proof.
  induction l as [|x l IH]; [done|].
  change (sorted lt key (x :: l))
    with (insert_sorted lt key x (sorted lt key l)).
  by rewrite insert_sorted_stable, !filter_cons, IH.
Qed.
End SortedFacts.

(** Sorting the images by a key is sorting by the key of the image. *)
Lemma sorted_fmap {A B K} (lt : K → K → bool) (key : B → K) (g : A → B)
    (l : list A) :
  sorted lt key (g <$> l) = g <$> sorted lt (key ∘ g) l.
Proof.
  induction l as [|x l IH]; [done|].
  change (sorted lt key (g <$> x :: l))
    with (insert_sorted lt key (g x) (sorted lt key (g <$> l))).
  change (sorted lt (key ∘ g) (x :: l))
    with (insert_sorted lt (key ∘ g) x (sorted lt (key ∘ g) l)).
  rewrite IH. generalize (sorted lt (key ∘ g) l). intros k.
  induction k as [|y k IHk]; [done|]. cbn.
  destruct (lt (key (g y)) (key (g x))); [|done]. by rewrite IHk.
Qed.

(** *** The order on the keys *)

Lemma str_lt_false (a b : string) : str_lt a b = false ↔ String.le b a.
Proof.
  unfold str_lt, String.le. rewrite negb_false_iff. symmetry.
  apply Is_true_true.
Qed.

Lemma tuple_lt_false (a b : bool * string) :
  tuple_lt b a = false ↔ tuple_le a b.
Proof.
  destruct a as [a1 a2], b as [b1 b2]. unfold tuple_lt, tuple_le. cbn.
  destruct a1, b1; cbn; try (intuition congruence).
  all: destruct (String.eqb_spec b2 a2) as [->|Hne]; cbn.
  all: rewrite ?str_lt_false; intuition (auto; try congruence).
Qed.

Lemma tuple_lt_irrefl (a : bool * string) : tuple_lt a a = false.
Proof.
  unfold tuple_lt. rewrite Bool.eqb_reflx. cbn.
  by rewrite String.eqb_refl.
Qed.

Lemma tuple_lt_asym (a b : bool * string) :
  tuple_lt a b = true → tuple_lt b a = false.
Proof.
  intros Hab. apply tuple_lt_false.
  destruct (tuple_lt b a) eqn:Hba; [|by apply tuple_lt_false].
  exfalso. revert Hab Hba.
  destruct a as [a1 a2], b as [b1 b2]. unfold tuple_lt. cbn.
  destruct a1, b1; cbn; try done.
  all: destruct (String.eqb_spec a2 b2) as [->|Hne]; cbn;
         [by rewrite String.eqb_refl|].
  all: destruct (String.eqb_spec b2 a2) as [->|_]; [done|]; cbn.
  all: unfold str_lt; rewrite !negb_true_iff; intros H1 H2.
  all: destruct (String.leb_total a2 b2); congruence.
Qed.

#[local] Instance tuple_le_trans : Transitive tuple_le.
Proof.
  intros a b c [[Ha Hb]|[Hab Hs]] [[Hb' Hc]|[Hbc Hs']]; unfold tuple_le.
  - congruence.
  - left. split; congruence.
  - left. split; congruence.
  - right. split; [congruence|by etrans].
Qed.

#[local] Instance tuple_le_antisym : AntiSymm (=) tuple_le.
Proof.
  intros [a1 a2] [b1 b2] [[Ha Hb]|[Hab Hs]] [[Hb' Ha']|[Hba Hs']];
    cbn in *; try congruence.
  f_equal; [done|]. by apply (anti_symm String.le).
Qed.

(** In a strongly sorted list an earlier element is related to a later one. *)
Lemma StronglySorted_lookup {A} (R : relation A) (l : list A) (i j : nat)
    (x y : A) :
  StronglySorted R l → i < j → l !! i = Some x → l !! j = Some y → R x y.
Proof.
  intros Hl. revert i j. induction Hl as [|z l _ IH Hz]; intros i j Hij; [done|].
  destruct j as [|j]; [lia|]. destruct i as [|i]; cbn.
  - intros [= ->] Hy. rewrite Forall_forall in Hz.
    eapply Hz, list_elem_of_lookup_2, Hy.
  - apply IH. lia.
Qed.

Section RendererProperties.
Context `{Host}.

(** [print_tree] in the shape of the source. *)
Lemma print_tree_eq (self : node) (indent : nat)
    (print_hidden is_last_child : bool) (prefix : string) :
  print_tree self indent print_hidden is_last_child prefix =
    if negb print_hidden && startswith (name self) "." then []
    else
      let connector :=
        if is_last_child then connector_last else connector_inner in
      if String.eqb (type self) "file" then
        [prefix +:+ connector +:+ file_icon +:+ name self]
      else if String.eqb (type self) "directory" then
        let new_prefix :=
          prefix +:+ (if is_last_child then prefix_last else prefix_inner) in
        (prefix +:+ connector +:+ directory_icon +:+ name self)
        :: concat (imap (λ i child,
                     print_tree child (indent + 1) print_hidden
                       (Nat.eqb i (length (sorted_children self) - 1))
                       new_prefix)
                   (sorted_children self))
      else [].
Proof.
  destruct self as [nm ty cs]. cbn [print_tree name type].
  destruct (negb print_hidden && startswith nm "."); [done|].
  destruct (String.eqb ty "file"); [done|].
  destruct (String.eqb ty "directory"); [|done].
  unfold sorted_children. cbn [children].
  rewrite (sorted_fmap tuple_lt (λ x : node * _, sort_key id x.1)).
  by rewrite imap_fmap, length_fmap.
Qed.

Lemma not_after_tuple_le (x y : node) :
  not_after tuple_lt (sort_key id) x y
  ↔ tuple_le (sort_key id x) (sort_key id y).
Proof. apply tuple_lt_false. Qed.

Lemma sorted_children_Sorted (self : node) :
  Sorted (not_after tuple_lt (sort_key id)) (sorted_children self).
Proof. apply sorted_Sorted, tuple_lt_asym. Qed.

Lemma sorted_children_keys_Sorted (self : node) :
  Sorted tuple_le (sort_key id <$> sorted_children self).
Proof.
  eapply Sorted_fmap, sorted_children_Sorted.
  intros x y. apply not_after_tuple_le.
Qed.

(** Two children in the order of display. *)
Lemma sorted_children_lookup (self : node) (i j : nat) (x y : node) :
  i < j → sorted_children self !! i = Some x →
  sorted_children self !! j = Some y →
  tuple_le (sort_key id x) (sort_key id y).
Proof.
  intros Hij Hx Hy. apply not_after_tuple_le.
  eapply (StronglySorted_lookup _ (sorted_children self)); try done.
  apply Sorted_StronglySorted; [|apply sorted_children_Sorted].
  intros a b c. rewrite !not_after_tuple_le. apply tuple_le_trans.
Qed.
End RendererProperties.

(** C9.  A directory node that is displayed prints its own line and then the
    lines of its children in the order of [sorted_children], which is a
    rearrangement of the children by the key of line 168: a child that is a
    directory never comes after one that is not, two children of the same
    group come in the order of their lowercased names, children with equal
    keys keep the order they are stored in, and the sequence of keys
    displayed is the same for every order of storage.  [print_tree] returns
    the lines only: the node and its children are read, not changed. *)
Theorem print_tree_children_sorted `{Host} (self : node) (indent : nat)
    (print_hidden is_last_child : bool) (prefix : string) :
  type self = "directory" →
  negb print_hidden && startswith (name self) "." = false →
  let shown := sorted_children self in
  print_tree self indent print_hidden is_last_child prefix
  = (prefix +:+ (if is_last_child then connector_last else connector_inner)
       +:+ directory_icon +:+ name self)
    :: concat (imap (λ i child,
                 print_tree child (indent + 1) print_hidden
                   (Nat.eqb i (length shown - 1))
                   (prefix +:+
                    (if is_last_child then prefix_last else prefix_inner)))
               shown)
  ∧ shown ≡ₚ children self
  ∧ (∀ i j x y, i < j → shown !! i = Some x → shown !! j = Some y →
       (type y = "directory" → type x = "directory")
       ∧ ((type x = "directory" ↔ type y = "directory") →
          String.le (str_lower (name x)) (str_lower (name y))))
  ∧ (∀ k, filter (λ c, sort_key id c = k) shown
          = filter (λ c, sort_key id c = k) (children self))
  ∧ (∀ other : node, children other ≡ₚ children self →
       sort_key id <$> sorted_children other = sort_key id <$> shown).
Proof.
  intros Hdir Hshown shown. split_and!.
  - rewrite print_tree_eq, Hshown, Hdir. done.
  - apply sorted_Permutation.
  - intros i j x y Hij Hx Hy.
    pose proof (sorted_children_lookup self i j x y Hij Hx Hy) as Hle.
    unfold tuple_le, sort_key in Hle. cbn in Hle.
    destruct (String.eqb_spec (type x) "directory") as [Hxd|Hxd],
             (String.eqb_spec (type y) "directory") as [Hyd|Hyd];
      cbn in Hle; split; try done; try tauto.
    + by destruct Hle as [[? ?]|[? ?]].
    + intros _. by destruct Hle as [[? ?]|[? ?]].
    + intros _. by destruct Hle as [[? ?]|[? ?]].
  - intros k. apply sorted_stable, tuple_lt_irrefl.
  - intros other Hperm.
    apply (Sorted_unique tuple_le); try apply sorted_children_keys_Sorted.
    apply fmap_Permutation. unfold shown, sorted_children.
    by rewrite !sorted_Permutation.
Qed.

(** Stored as [b.txt], [A], [a.txt]; displayed as [A], [a.txt], [b.txt]. *)
Example sorted_children_sample :
  name <$> @sorted_children sample_host sample_tree = ["A"; "a.txt"; "b.txt"]
  ∧ name <$> children sample_tree = ["b.txt"; "A"; "a.txt"].
Proof. split; reflexivity. Qed.

Lemma print_tree_children_sorted_witness :
  @print_tree sample_host sample_tree 0 false true ""
  = ("" +:+ connector_last +:+ directory_icon +:+ "project")
    :: concat (imap (λ i child,
                 @print_tree sample_host child (0 + 1) false
                   (Nat.eqb i (length (@sorted_children sample_host sample_tree)
                               - 1))
                   ("" +:+ prefix_last))
               (@sorted_children sample_host sample_tree)).
Proof.
  exact (proj1 (@print_tree_children_sorted sample_host sample_tree 0 false
                  true "" eq_refl eq_refl)).
Defined.

(** * Further properties *)

(** ** The decoder *)

(** X1.  Every tree [deserialize] returns satisfies the invariant at every
    node: each kind is one of the two literals and no file has children. *)
Theorem deserialize_yields_valid `{Host} (text : string)
    (n : FileTreeNode json) :
  deserialize text = OK n → valid n = true.
Proof.
  unfold deserialize. destruct (json_loads text) as [data|]; [|done].
  apply dict_to_node_valid.
Qed.

Lemma deserialize_yields_valid_witness :
  valid (dyn sample_tree) = true.
Proof.
  apply (@deserialize_yields_valid sample_host
           (compact (node_to_dict (dyn sample_tree)))).
  reflexivity.
Defined.

(** X2.  A ["file"] object whose [children] is a non-empty array is never
    decoded: when the elements themselves decode, the constructor raises
    [ValueError] for a file with children. *)
Theorem dict_to_node_file_with_children (m : gmap string json) (nm c : json)
    (l : list json) :
  m !! "name" = Some nm →
  m !! "type" = Some (JStr "file") →
  m !! "children" = Some (JList (c :: l)) →
  (∃ e, dict_to_node (JObj m) = Raise e)
  ∧ (∀ k, mapM dict_to_node (c :: l) = OK k →
          dict_to_node (JObj m)
          = Raise (ValueError "Files must not contain children")).
Proof.
  intros Hnm Hty Hc. rewrite dict_to_node_eq. unfold getitem.
  rewrite Hnm, Hty, Hc. cbn [mbind result_bind decode_children truthy].
  destruct (mapM dict_to_node (c :: l)) as [k|e]; cbn.
  - split; [by eexists|]. by intros ? _.
  - split; [by eexists|]. done.
Qed.

Lemma dict_to_node_file_with_children_witness :
  dict_to_node
    (JObj {[ "name" := JStr "x"; "type" := JStr "file";
             "children" := JList [node_to_dict (dyn sample_tree)] ]})
  = Raise (ValueError "Files must not contain children").
Proof.
  destruct (dict_to_node_file_with_children
              {[ "name" := JStr "x"; "type" := JStr "file";
                 "children" := JList [node_to_dict (dyn sample_tree)] ]}
              (JStr "x") (node_to_dict (dyn sample_tree)) [])
    as [_ Hraise]; [reflexivity..|].
  apply (Hraise [dyn sample_tree]). reflexivity.
Defined.

(** X3.  Encoding a tree the decoder returned and decoding the result gives
    the same tree again: what was loaded is saved without loss. *)
Theorem dict_to_node_reencode (j : json) (n : FileTreeNode json) :
  dict_to_node j = OK n → dict_to_node (node_to_dict n) = OK n.
Proof. intros Hn. eapply dict_to_node_node_to_dict, dict_to_node_valid, Hn. Qed.

Lemma dict_to_node_reencode_witness :
  dict_to_node
    (node_to_dict (Node (JStr "x") "file" []))
  = OK (Node (JStr "x") "file" []).
Proof.
  apply (dict_to_node_reencode
           (JObj {[ "name" := JStr "x"; "type" := JStr "file";
                    "children" := JList []; "size" := JNum 3 ]})).
  reflexivity.
Defined.

(** X4.  The decoder reads the keys [name], [type] and [children] only: any
    other key of an object changes nothing. *)
Theorem dict_to_node_other_key (m : gmap string json) (key : string)
    (v : json) :
  key ∉ ["name"; "type"; "children"] →
  dict_to_node (JObj (<[key := v]> m)) = dict_to_node (JObj m).
Proof.
  intros Hkey. rewrite !dict_to_node_eq. unfold getitem.
  rewrite !lookup_insert_ne; [done|..]; intros ->; apply Hkey.
  all: rewrite !elem_of_cons; auto.
Qed.

Lemma dict_to_node_other_key_witness :
  dict_to_node (JObj (<["size" := JNum 3]> {[ "name" := JStr "x" ]}))
  = dict_to_node (JObj {[ "name" := JStr "x" ]}).
Proof.
  apply (dict_to_node_other_key {[ "name" := JStr "x" ]} "size" (JNum 3)).
  intros Hin. repeat (apply elem_of_cons in Hin as [Hin|Hin]; [done|]).
  by apply elem_of_nil in Hin.
Defined.

(** ** The scanner *)

Lemma resolve_join (fs : fsnode) (p : pathname) (es : list (string * fsnode))
    (item : string) :
  os.resolve fs p = Some (FsDir es) →
  os.resolve fs (os.path.join p item) = os.lookup_entry item es.
Proof.
  intros Hp. unfold os.path.join. rewrite resolve_app, Hp. cbn.
  by destruct (os.lookup_entry item es).
Qed.

Section mapM_raise.
Context {A B : Type} (f : A → result B).

Lemma mapM_result_ext (g : A → result B) (l : list A) :
  Forall (λ x, f x = g x) l → mapM f l = mapM g l.
Proof. induction 1 as [|x l Hx _ IH]; [done|]. cbn. by rewrite Hx, IH. Qed.

End mapM_raise.

(** The tree a scan into a new directory node returns satisfies the
    invariant. *)
Lemma build_from_directory_valid_fresh (fs : fsnode) (limit : nat)
    (self : node) (dir_path : pathname) (add_hidden : bool) (n : node) :
  children self = [] → type self = "directory" →
  build_from_directory limit fs self dir_path add_hidden = OK n →
  valid n = true.
Proof.
  revert self dir_path add_hidden n.
  induction limit as [|limit IH]; intros self dir_path add_hidden n
    Hfresh Hty Hn; [done|].
  destruct (build_from_directory_isdir _ _ _ _ _ _ Hn) as [es Hes].
  destruct (build_from_directory_children _ _ _ _ _ _ _ Hfresh Hes Hn)
    as (populated & -> & Hpop).
  apply valid_Node. rewrite Hty. split_and!.
  - rewrite !elem_of_cons. auto.
  - done.
  - apply Forall_app. split.
    + apply Forall_forall. intros child [i Hi]%list_elem_of_lookup.
      destruct (Forall2_lookup_r _ _ _ _ _ Hpop Hi) as (dir & _ & Hc & _ & _).
      cbn [pred] in Hc. eapply IH; [| |exact Hc]; done.
    + apply Forall_forall. by intros child (file & -> & _)%list_elem_of_fmap.
Qed.

(** X5.  Scanning without [add_hidden] returns a tree in which no node
    below the root has a name that starts with a dot, at any depth. *)
Theorem scan_without_hidden (fs : fsnode) (limit : nat) (self : node)
    (dir_path : pathname) (n : node) :
  children self = [] →
  build_from_directory limit fs self dir_path false = OK n →
  no_hidden_below n = true.
Proof. apply build_from_directory_no_hidden. Qed.

Lemma scan_without_hidden_witness :
  no_hidden_below
    (Node "root" "directory"
       [Node "sub" "directory" [Node "visible.txt" "file" []];
        Node "visible.txt" "file" []])
  = true.
Proof.
  apply (scan_without_hidden hidden_fs 2 (Node "root" "directory" []) []);
    reflexivity.
Defined.

(** X6.  The tree a scan into a new directory node returns satisfies the
    invariant of the data model: every kind is one of the two literals and
    no file node has children. *)
Theorem scan_yields_valid (fs : fsnode) (limit : nat) (self : node)
    (dir_path : pathname) (add_hidden : bool) (n : node) :
  children self = [] → type self = "directory" →
  build_from_directory limit fs self dir_path add_hidden = OK n →
  valid n = true.
Proof. apply build_from_directory_valid_fresh. Qed.

Lemma scan_yields_valid_witness :
  valid
    (Node "root" "directory"
       [Node "sub" "directory" [Node "visible.txt" "file" []];
        Node ".secret" "file" [];
        Node "visible.txt" "file" []])
  = true.
Proof.
  apply (scan_yields_valid hidden_fs 2 (Node "root" "directory" []) [] true);
    reflexivity.
Defined.

(** X7.  A scanned tree survives persistence: serializing the result of a
    scan into a new directory node and decoding the text gives that tree,
    whenever the host parses the text it printed. *)
Theorem scan_serialize_roundtrip `{Host} (fs : fsnode) (limit : nat)
    (self : node) (dir_path : pathname) (add_hidden : bool) (n : node) :
  children self = [] → type self = "directory" →
  build_from_directory limit fs self dir_path add_hidden = OK n →
  json_loads (json_dumps (node_to_dict (dyn n))) = OK (node_to_dict (dyn n)) →
  deserialize (serialize n) = OK (dyn n).
Proof.
  intros Hfresh Hty Hn Hhost. unfold serialize.
  rewrite (deserialize_loaded _ _ Hhost).
  apply dict_to_node_node_to_dict. rewrite valid_dyn.
  by eapply build_from_directory_valid_fresh.
Qed.

Lemma scan_serialize_roundtrip_witness :
  @deserialize scanned_host (@serialize scanned_host scanned_tree)
  = OK (dyn scanned_tree).
Proof.
  apply (@scan_serialize_roundtrip scanned_host (skeleton scanned_tree) 2
           (Node "project" "directory" []) [] false scanned_tree);
    reflexivity.
Defined.



(** X9.  A scan reads nothing outside the directory it is given: two file
    systems that have the same directory at the scanned paths give the same
    result. *)
Theorem scan_local (limit : nat) (fs fs' : fsnode) (self : node)
    (dir_path dir_path' : pathname) (add_hidden : bool)
    (es : list (string * fsnode)) :
  children self = [] →
  os.resolve fs dir_path = Some (FsDir es) →
  os.resolve fs' dir_path' = Some (FsDir es) →
  build_from_directory limit fs self dir_path add_hidden
  = build_from_directory limit fs' self dir_path' add_hidden.
Proof.
  revert self dir_path dir_path' add_hidden es.
  induction limit as [|limit IH]; intros self dir_path dir_path' add_hidden es
    Hfresh Hes Hes'; [done|].
  rewrite (build_from_directory_step fs _ _ _ _ es) by done.
  rewrite (build_from_directory_step fs' _ _ _ _ es) by done.
  assert (∀ item, os.resolve fs (os.path.join dir_path item)
                  = os.resolve fs' (os.path.join dir_path' item)) as Hsame.
  { intros item. by rewrite (resolve_join _ _ es), (resolve_join _ _ es). }
  rewrite (List.filter_ext
             (λ item, os.path.isdir fs (os.path.join dir_path item))
             (λ item, os.path.isdir fs' (os.path.join dir_path' item)))
    by (intros item; unfold os.path.isdir; by rewrite Hsame).
  rewrite (List.filter_ext
             (λ item, os.path.isfile fs (os.path.join dir_path item))
             (λ item, os.path.isfile fs' (os.path.join dir_path' item)))
    by (intros item; unfold os.path.isfile; by rewrite Hsame).
  erewrite mapM_result_ext; [done|].
  apply Forall_forall. intros dir [_ Hdir]%list_elem_of_In%filter_In.
  unfold os.path.isdir in Hdir.
  destruct (os.resolve fs' (os.path.join dir_path' dir)) as [[|es'|]|] eqn:Hd;
    try done.
  eapply IH; [done| |exact Hd]. by rewrite Hsame.
Qed.

Lemma scan_local_witness :
  build_from_directory 2 (skeleton scanned_tree)
    (Node "project" "directory" []) [] false
  = build_from_directory 2 (FsDir [("project", skeleton scanned_tree)])
      (Node "project" "directory" []) ["project"] false.
Proof.
  apply (scan_local 2 (skeleton scanned_tree)
           (FsDir [("project", skeleton scanned_tree)])
           (Node "project" "directory" []) [] ["project"] false
           [("A", FsDir [("notes.md", FsFile "This is an empty template file")]);
            ("a.txt", FsFile "This is an empty template file");
            ("b.txt", FsFile "This is an empty template file")]);
    reflexivity.
Defined.

(** ** The file system *)

Lemma lookup_entry_set_entry (m n : string) (sub : fsnode)
    (es : list (string * fsnode)) :
  os.lookup_entry m (os.set_entry n sub es) =
    if String.eqb m n
    then match os.lookup_entry n es with Some _ => Some sub | None => None end
    else os.lookup_entry m es.
Proof.
  induction es as [|[n' old] es IH]; cbn; [by destruct (String.eqb m n)|].
  destruct (String.eqb_spec n n') as [->|Hn]; cbn.
  - by destruct (String.eqb_spec m n').
  - rewrite IH. destruct (String.eqb_spec m n') as [->|Hm]; [|done].
    by destruct (String.eqb_spec n' n) as [->|_].
Qed.

Lemma lookup_entry_app (m : string) (es es' : list (string * fsnode)) :
  os.lookup_entry m (es ++ es') =
    match os.lookup_entry m es with
    | Some x => Some x
    | None => os.lookup_entry m es'
    end.
Proof.
  induction es as [|[n' y] es IH]; cbn; [done|].
  by destruct (String.eqb m n').
Qed.

Lemma kept_same (fs : fsnode) (q : pathname) (x : fsnode) :
  os.resolve fs q = Some x → kept x fs q.
Proof. intros Hx. unfold kept, os.path.isdir. rewrite Hx. by destruct x. Qed.

Lemma kept_cons (x y' : fsnode) (es' : list (string * fsnode)) (m : string)
    (q : pathname) :
  os.lookup_entry m es' = Some y' → kept x y' q → kept x (FsDir es') (m :: q).
Proof.
  intros Hm. unfold kept, os.path.isdir. cbn. by rewrite Hm.
Qed.

Lemma keeps_refl (P : pathname → Prop) (fs : fsnode) : keeps P fs fs.
Proof. intros q x _. apply kept_same. Qed.

Lemma keeps_mono (P Q : pathname → Prop) (fs fs' : fsnode) :
  (∀ q, Q q → P q) → keeps P fs fs' → keeps Q fs fs'.
Proof. intros HPQ Hk q x Hq. apply Hk, HPQ, Hq. Qed.

Lemma grows_trans (fs1 fs2 fs3 : fsnode) :
  grows fs1 fs2 → grows fs2 fs3 → grows fs1 fs3.
Proof.
  intros H12 H23 q x _ Hx. specialize (H12 q x I Hx).
  destruct x as [c|es|]; cbn in *.
  - apply (H23 q (FsFile c) I H12).
  - unfold os.path.isdir in H12.
    destruct (os.resolve fs2 q) as [[|es2|]|] eqn:H2; try done.
    apply (H23 q (FsDir es2) I H2).
  - apply (H23 q FsDevice I H12).
Qed.

(** Replacing an entry by one that keeps it, and adding entries. *)
Lemma keeps_set_entry (P : pathname → Prop) (n : string)
    (es : list (string * fsnode)) (sub sub' : fsnode) :
  os.lookup_entry n es = Some sub →
  keeps (λ q, P (n :: q)) sub sub' →
  keeps P (FsDir es) (FsDir (os.set_entry n sub' es)).
Proof.
  intros Hn Hsub [|m q] x HP Hx.
  - by injection Hx as <-.
  - cbn in Hx. destruct (os.lookup_entry m es) as [y|] eqn:Hm; [|done].
    destruct (String.eqb_spec m n) as [->|Hmn].
    + rewrite Hn in Hm. injection Hm as <-.
      eapply kept_cons; [|by apply Hsub].
      by rewrite lookup_entry_set_entry, String.eqb_refl, Hn.
    + eapply kept_cons; [|by apply kept_same].
      rewrite lookup_entry_set_entry.
      by destruct (String.eqb_spec m n).
Qed.

Lemma keeps_app (P : pathname → Prop) (es es' : list (string * fsnode)) :
  keeps P (FsDir es) (FsDir (es ++ es')).
Proof.
  intros [|m q] x _ Hx.
  - by injection Hx as <-.
  - cbn in Hx. destruct (os.lookup_entry m es) as [y|] eqn:Hm; [|done].
    eapply kept_cons; [|by apply kept_same].
    by rewrite lookup_entry_app, Hm.
Qed.

(** [os.makedirs] removes and changes nothing. *)
Lemma makedirs_from_grows (whole : pathname) (fs fs' : fsnode)
    (p : pathname) :
  os.makedirs_from whole fs p = OK fs' → grows fs fs'.
Proof.
  revert fs fs'. induction p as [|n p IH]; intros fs fs'; [done|]. cbn.
  destruct fs as [|es|]; try done.
  destruct (os.lookup_entry n es) as [sub|] eqn:Hn.
  - destruct (os.makedirs_from whole sub p) as [sub'|] eqn:Hsub; [|done].
    cbn. intros [= <-]. eapply keeps_set_entry; [done|]. by apply IH.
  - intros [= <-]. apply keeps_app.
Qed.

Lemma resolve_fresh_dirs (p : pathname) :
  os.resolve (os.fresh_dirs p) p = Some (FsDir []).
Proof. induction p as [|n p IH]; [done|]. cbn. by rewrite String.eqb_refl. Qed.

(** After [os.makedirs] the path is a directory. *)
Lemma makedirs_from_isdir (whole : pathname) (fs fs' : fsnode)
    (p : pathname) :
  os.makedirs_from whole fs p = OK fs' → os.path.isdir fs' p = true.
Proof.
  unfold os.path.isdir.
  revert fs fs'. induction p as [|n p IH]; intros fs fs'; [done|]. cbn.
  destruct fs as [|es|]; try done.
  destruct (os.lookup_entry n es) as [sub|] eqn:Hn.
  - destruct (os.makedirs_from whole sub p) as [sub'|] eqn:Hsub; [|done].
    cbn. intros [= <-]. cbn.
    rewrite lookup_entry_set_entry, String.eqb_refl, Hn. by eapply IH.
  - intros [= <-]. cbn. rewrite lookup_entry_app, Hn. cbn.
    by rewrite String.eqb_refl, resolve_fresh_dirs.
Qed.

(** [open(p, "w")] and [write] change nothing but what [p] names. *)
Lemma write_from_grows_but (whole : pathname) (fs fs' : fsnode)
    (p : pathname) (text : string) :
  os.write_from whole fs p text = OK fs' → grows_but p fs fs'.
Proof.
  revert fs fs'. induction p as [|n p IH]; intros fs fs'; cbn.
  - destruct fs as [c|es|]; try done.
    + intros [= <-] [|m q] x Hq Hx; done.
    + intros [= <-]. apply keeps_refl.
  - destruct fs as [|es|]; try done.
    destruct (os.lookup_entry n es) as [sub|] eqn:Hn.
    + destruct (os.write_from whole sub p text) as [sub'|] eqn:Hsub; [|done].
      cbn. intros [= <-]. eapply keeps_set_entry; [done|].
      eapply keeps_mono; [|by apply IH]. cbn. intros q Hq ->. done.
    + destruct p; [|done]. intros [= <-]. apply keeps_app.
Qed.

(** What [p] names after [open(p, "w")] and [write]. *)
Lemma write_from_result (whole : pathname) (fs fs' : fsnode)
    (p : pathname) (text : string) :
  os.write_from whole fs p text = OK fs' →
  os.resolve fs' p
  = Some (match os.resolve fs p with
          | Some FsDevice => FsDevice
          | _ => FsFile text
          end).
Proof.
  revert fs fs'. induction p as [|n p IH]; intros fs fs'; cbn.
  - destruct fs as [c|es|]; try done; by intros [= <-].
  - destruct fs as [|es|]; try done.
    destruct (os.lookup_entry n es) as [sub|] eqn:Hn.
    + destruct (os.write_from whole sub p text) as [sub'|] eqn:Hsub; [|done].
      cbn. intros [= <-]. cbn.
      rewrite lookup_entry_set_entry, String.eqb_refl, Hn. by apply IH.
    + destruct p; [|done]. intros [= <-]. cbn.
      by rewrite lookup_entry_app, Hn; cbn; rewrite String.eqb_refl.
Qed.

Lemma grows_exists (fs fs' : fsnode) (q : pathname) :
  grows fs fs' → os.path.exists_ fs q = true → os.path.exists_ fs' q = true.
Proof.
  unfold os.path.exists_. intros Hg.
  destruct (os.resolve fs q) as [x|] eqn:Hx; [|done]. intros _.
  specialize (Hg q x I Hx). unfold kept, os.path.isdir in Hg.
  destruct x; by destruct (os.resolve fs' q) as [[]|].
Qed.

Lemma grows_but_grows (p : pathname) (fs fs' : fsnode) :
  os.resolve fs p = None → grows_but p fs fs' → grows fs fs'.
Proof. intros Hp Hg q x _ Hx. apply Hg; [|done]. intros ->. congruence. Qed.

(** ** Persistence and materialization: what is kept, what is written *)

Lemma world_grows_refl (w : world) : world_grows w w.
Proof. split; [apply keeps_refl|done]. Qed.

Lemma world_grows_trans (w1 w2 w3 : world) :
  world_grows w1 w2 → world_grows w2 w3 → world_grows w1 w3.
Proof.
  intros [Hg12 Hc12] [Hg23 Hc23]. split; [by eapply grows_trans|congruence].
Qed.

Lemma world_grows_print (w : world) (line : string) :
  world_grows w (print line w).2.
Proof. split; [apply keeps_refl|done]. Qed.

(** One turn of a [for] loop. *)
Lemma for_each_cons {A} (body : A → io unit) (x : A) (l : list A)
    (w : world) :
  for_each body (x :: l) w =
    match body x w with
    | (OK _, w') => for_each body l w'
    | (Raise e, w') => (Raise e, w')
    end.
Proof. reflexivity. Qed.

(** A loop keeps what each of its turns keeps. *)
Lemma for_each_world_grows {A} (body : A → io unit) (l : list A) (w : world) :
  Forall (λ x, ∀ w, world_grows w (body x w).2) l →
  world_grows w (for_each body l w).2.
Proof.
  intros Hbody. revert w.
  induction Hbody as [|x l Hx _ IH]; intros w; [apply world_grows_refl|].
  rewrite for_each_cons. specialize (Hx w).
  destruct (body x w) as [[[]|e] w']; [|done].
  eapply world_grows_trans; [exact Hx|apply IH].
Qed.

(** One call of [create_template_copy] on a world. *)
Lemma create_template_copy_run (self : node)
    (destination_path : option pathname) (overwrite : bool) (w : world) :
  create_template_copy self destination_path overwrite w =
    let root_path :=
      os.path.join (default (cwd w) destination_path) (name self) in
    if os.path.exists_ (files w) root_path && negb overwrite then
      print ("Path '" +:+ path_str root_path +:+
             "' already exists. Skipping creation.") w
    else if String.eqb (type self) "directory" then
      match os.makedirs (files w) root_path with
      | OK fs' =>
          for_each
            (λ child, create_template_copy child (Some root_path) false)
            (children self) (World fs' (cwd w) (stdout w))
      | Raise e => (Raise e, w)
      end
    else if String.eqb (type self) "file" then
      match os.write_text (files w) root_path
              "This is an empty template file" with
      | OK fs' => (OK (), World fs' (cwd w) (stdout w))
      | Raise e => (Raise e, w)
      end
    else
      (Raise (ValueError ("Unknown type '" +:+ type self +:+ "' for node '" +:+
                          name self +:+
                          "'. Expected 'file' or 'directory'.")), w).
Proof.
  destruct self as [nm ty cs], destination_path as [p|]; cbn.
  all: unfold mbind, io_bind, stat, update, getcwd, mret, io_ret, raise; cbn.
  all: unfold os.makedirs, os.write_text, os.path.join.
  all: destruct (os.path.exists_ _ _ && negb overwrite); [done|].
  all: destruct (String.eqb ty "directory");
         [by destruct (os.makedirs_from _ _ _)|].
  all: destruct (String.eqb ty "file"); [|done].
  all: by destruct (os.write_from _ _ _ _).
Qed.

(** Without [overwrite] a call removes nothing and changes no file,
    whether it returns or raises. *)
Lemma create_template_copy_world_grows (self : node)
    (destination_path : option pathname) (w : world) :
  world_grows w (create_template_copy self destination_path false w).2.
Proof.
  revert destination_path w.
  induction self as [nm ty cs IH] using FileTreeNode_ind'.
  intros destination_path w. rewrite create_template_copy_run.
  cbn [name type children negb]. rewrite andb_true_r.
  set (root_path := os.path.join (default (cwd w) destination_path) nm).
  destruct (os.path.exists_ (files w) root_path) eqn:Hthere;
    [apply world_grows_print|].
  assert (os.resolve (files w) root_path = None) as Hnone.
  { unfold os.path.exists_ in Hthere.
    by destruct (os.resolve (files w) root_path). }
  destruct (String.eqb ty "directory").
  - destruct (os.makedirs (files w) root_path) as [fs'|] eqn:Hmk;
      [|apply world_grows_refl].
    eapply world_grows_trans; [|apply for_each_world_grows].
    + split; [by eapply makedirs_from_grows|done].
    + eapply Forall_impl; [exact IH|]. cbn. intros child Hchild w'.
      apply Hchild.
  - destruct (String.eqb ty "file"); [|apply world_grows_refl].
    destruct (os.write_text (files w) root_path _) as [fs'|] eqn:Hwr;
      [|apply world_grows_refl].
    split; [|done]. cbn.
    eapply grows_but_grows; [exact Hnone|]. by eapply write_from_grows_but.
Qed.

(** After a call that returns, the target exists. *)
Lemma create_template_copy_target_exists (self : node)
    (destination_path : option pathname) (overwrite : bool) (w w' : world) :
  create_template_copy self destination_path overwrite w = (OK (), w') →
  os.path.exists_ (files w')
    (os.path.join (default (cwd w) destination_path) (name self)) = true
  ∧ cwd w' = cwd w.
Proof.
  rewrite create_template_copy_run. cbn zeta.
  set (root_path := os.path.join (default (cwd w) destination_path)
                      (name self)).
  destruct (os.path.exists_ (files w) root_path && negb overwrite) eqn:Hskip.
  { intros [= <-]. cbn. by apply andb_true_iff in Hskip as [-> _]. }
  destruct (String.eqb (type self) "directory").
  - destruct (os.makedirs (files w) root_path) as [fs'|] eqn:Hmk; [|done].
    intros Hloop.
    pose proof (for_each_world_grows
      (λ child, create_template_copy child (Some root_path) false)
      (children self) (World fs' (cwd w) (stdout w))) as Hg.
    rewrite Hloop in Hg. destruct Hg as [Hg Hcwd].
    { apply Forall_forall. intros child _ w0.
      apply create_template_copy_world_grows. }
    split; [|done]. eapply grows_exists; [exact Hg|]. cbn.
    apply makedirs_from_isdir in Hmk. unfold os.path.isdir in Hmk.
    unfold os.path.exists_. by destruct (os.resolve fs' root_path).
  - destruct (String.eqb (type self) "file"); [|done].
    destruct (os.write_text (files w) root_path _) as [fs'|] eqn:Hwr; [|done].
    intros [= <-]. cbn. split; [|done].
    apply write_from_result in Hwr. unfold os.path.exists_. by rewrite Hwr.
Qed.

(** X10.  Without [overwrite], [create_template_copy] deletes nothing and
    changes no existing file, whether it returns or raises: whatever a path
    named before the call, it names after it (a file with the same text, a
    directory still a directory); the working directory is the same. *)
Theorem create_template_copy_keeps_existing (self : node)
    (destination_path : option pathname) (w : world) (q : pathname)
    (x : fsnode) :
  os.resolve (files w) q = Some x →
  let w' := (create_template_copy self destination_path false w).2 in
  kept x (files w') q ∧ cwd w' = cwd w.
Proof.
  intros Hx w'.
  destruct (create_template_copy_world_grows self destination_path w)
    as [Hg Hcwd].
  split; [by apply (Hg q x I)|done].
Qed.

Lemma create_template_copy_keeps_existing_witness :
  kept (FsFile "{}")
    (files (create_template_copy scanned_tree (Some ["out"]) false
              used_world).2)
    ["tree.json"].
Proof.
  apply (create_template_copy_keeps_existing scanned_tree (Some ["out"])
           used_world ["tree.json"] (FsFile "{}")).
  reflexivity.
Defined.

(** X11.  After a call of [create_template_copy] that returns, a second
    call for the same destination without [overwrite] prints that the path
    is skipped and leaves the file system as the first call left it. *)
Theorem create_template_copy_twice (self : node)
    (destination_path : option pathname) (overwrite : bool) (w w' : world) :
  create_template_copy self destination_path overwrite w = (OK (), w') →
  create_template_copy self destination_path false w'
  = (OK (),
     World (files w') (cwd w')
       (stdout w' ++
        ["Path '" +:+
         path_str (os.path.join (default (cwd w') destination_path)
                     (name self)) +:+
         "' already exists. Skipping creation."])).
Proof.
  intros [Hthere Hcwd]%create_template_copy_target_exists.
  rewrite create_template_copy_run. cbn zeta. rewrite Hcwd, Hthere.
  unfold print. cbn. by rewrite Hcwd.
Qed.

Lemma create_template_copy_twice_witness :
  let w' := (create_template_copy scanned_tree None false empty_world).2 in
  create_template_copy scanned_tree None false w'
  = (OK (),
     World (files w') (cwd w')
       (stdout w' ++ ["Path 'project' already exists. Skipping creation."])).
Proof.
  intros w'.
  apply (create_template_copy_twice scanned_tree None false empty_world w').
  reflexivity.
Defined.








(** ** Materializing where nothing is in the way *)











(** ** Scanning what was materialized *)











(** ** The renderer: the lines that are printed *)

Lemma string_app_assoc (a b c : string) : (a +:+ b) +:+ c = a +:+ b +:+ c.
Proof.
  induction a as [|x a IH]; [done|].
  change (String x ((a +:+ b) +:+ c) = String x (a +:+ b +:+ c)).
  by rewrite IH.
Qed.

Lemma length_concat_imap {A B} (g : A → nat) (l : list A) :
  ∀ f : nat → A → list B,
    (∀ i x, x ∈ l → length (f i x) = g x) →
    length (concat (imap f l)) = sum_list (g <$> l).
Proof.
  induction l as [|x l IH]; intros f Hf; [done|].
  rewrite imap_cons. cbn. rewrite length_app, Hf by left. f_equal.
  apply IH. intros i y Hy. apply Hf. by right.
Qed.

Lemma elem_of_concat_imap {A B} (f : nat → A → list B) (l : list A) (y : B) :
  y ∈ concat (imap f l) ↔ ∃ i x, l !! i = Some x ∧ y ∈ f i x.
Proof.
  rewrite list_elem_of_In, in_concat. split.
  - intros (k & Hk & Hy). apply list_elem_of_In, elem_of_lookup_imap in Hk.
    destruct Hk as (i & x & -> & Hx). exists i, x.
    by rewrite list_elem_of_In.
  - intros (i & x & Hx & Hy). exists (f i x). split.
    + by apply list_elem_of_In, elem_of_lookup_imap_2.
    + by apply list_elem_of_In.
Qed.

Section RendererOutput.
Context `{Host}.

Lemma sorted_children_elem_of (self x : node) :
  x ∈ sorted_children self ↔ x ∈ children self.
Proof. unfold sorted_children. by rewrite sorted_Permutation. Qed.

Lemma print_tree_hidden (self : node) (indent : nat) (is_last_child : bool)
    (prefix : string) :
  startswith (name self) "." = true →
  print_tree self indent false is_last_child prefix = [].
Proof. intros Hdot. rewrite print_tree_eq, Hdot. done. Qed.

Lemma print_tree_prefixed (self : node) :
  ∀ indent print_hidden is_last_child prefix line,
    line ∈ print_tree self indent print_hidden is_last_child prefix →
    ∃ rest, line = prefix +:+ rest.
Proof.
  induction self as [nm ty cs IH] using FileTreeNode_ind'.
  intros indent print_hidden is_last_child prefix line.
  rewrite print_tree_eq. cbn [name type].
  destruct (negb print_hidden && startswith nm "."); [by intros ?%elem_of_nil|].
  destruct (String.eqb ty "file").
  { intros ->%list_elem_of_singleton. by eexists. }
  destruct (String.eqb ty "directory"); [|by intros ?%elem_of_nil].
  cbn zeta. intros [->|Hline]%elem_of_cons; [by eexists|].
  apply elem_of_concat_imap in Hline as (i & child & Hchild & Hline).
  rewrite Forall_forall in IH.
  apply IH in Hline as [rest ->].
  - rewrite string_app_assoc. by eexists.
  - apply (sorted_children_elem_of (Node nm ty cs)).
    by eapply list_elem_of_lookup_2.
Qed.

Lemma print_tree_inner (self : node) (indent : nat) (print_hidden : bool)
    (prefix line : string) :
  line ∈ print_tree self indent print_hidden false prefix →
  ∃ rest, line = prefix +:+ connector_inner +:+ rest
          ∨ line = prefix +:+ prefix_inner +:+ rest.
Proof.
  rewrite print_tree_eq.
  destruct (negb print_hidden && startswith _ "."); [by intros ?%elem_of_nil|].
  destruct (String.eqb _ "file").
  { intros ->%list_elem_of_singleton. eexists. by left. }
  destruct (String.eqb _ "directory"); [|by intros ?%elem_of_nil].
  cbn zeta. intros [->|Hline]%elem_of_cons; [eexists; by left|].
  apply elem_of_concat_imap in Hline as (i & child & Hchild & Hline).
  apply print_tree_prefixed in Hline as [rest ->].
  rewrite string_app_assoc. eexists. by right.
Qed.

(** X17.  One line per node: a tree that satisfies the invariant is printed
    on as many lines as it has nodes, when hidden names are to be printed or
    when neither the name of the root nor a name below it starts with a
    dot. *)
Theorem print_tree_line_per_node (self : node) (indent : nat)
    (print_hidden is_last_child : bool) (prefix : string) :
  valid self = true →
  (print_hidden = false →
   startswith (name self) "." = false ∧ no_hidden_below self = true) →
  length (print_tree self indent print_hidden is_last_child prefix)
  = node_count self.
Proof.
  revert indent is_last_child prefix.
  induction self as [nm ty cs IH] using FileTreeNode_ind'.
  intros indent is_last_child prefix Hvalid Hshown.
  apply valid_Node in Hvalid as (Hty & Hfile & Hcs).
  rewrite print_tree_eq. cbn [name type node_count].
  assert (negb print_hidden && startswith nm "." = false) as ->.
  { destruct print_hidden; [done|]. cbn [name] in Hshown.
    by destruct (Hshown eq_refl) as [-> _]. }
  destruct (String.eqb_spec ty "file") as [->|Hnot].
  { by rewrite Hfile. }
  assert (ty = "directory") as ->.
  { apply elem_of_cons in Hty as [|Hty]; [done|].
    by apply list_elem_of_singleton in Hty. }
  cbn. f_equal. rewrite (length_concat_imap node_count).
  { apply (sum_list_with_Permutation_proper id), fmap_Permutation.
    apply (sorted_Permutation tuple_lt (sort_key id) cs). }
  intros i child Hchild.
  apply (sorted_children_elem_of (Node nm "directory" cs)) in Hchild.
  cbn [children] in Hchild.
  rewrite Forall_forall in IH, Hcs. apply IH; [done|by apply Hcs|].
  intros ->. destruct (Hshown eq_refl) as [_ Hbelow].
  cbn [no_hidden_below] in Hbelow. rewrite forallb_forall in Hbelow.
  apply list_elem_of_In, Hbelow, andb_true_iff in Hchild as [Hdot Hrec].
  by apply negb_true_iff in Hdot.
Qed.

(** X18.  Every line that is printed starts with the prefix the call was
    given: the lines of a subtree stay in the column of its parent. *)
Theorem print_tree_lines_start_with_prefix (self : node) (indent : nat)
    (print_hidden is_last_child : bool) (prefix line : string) :
  line ∈ print_tree self indent print_hidden is_last_child prefix →
  ∃ rest, line = prefix +:+ rest.
Proof. apply print_tree_prefixed. Qed.

(** X19.  The argument [indent] has no effect on what is printed. *)
Theorem print_tree_indent_unused (self : node) (indent indent' : nat)
    (print_hidden is_last_child : bool) (prefix : string) :
  print_tree self indent print_hidden is_last_child prefix
  = print_tree self indent' print_hidden is_last_child prefix.
Proof.
  revert indent indent' is_last_child prefix.
  induction self as [nm ty cs IH] using FileTreeNode_ind'.
  intros indent indent' is_last_child prefix.
  rewrite !(print_tree_eq (Node nm ty cs)). cbn [name type].
  destruct (negb print_hidden && startswith nm "."); [done|].
  destruct (String.eqb ty "file"); [done|].
  destruct (String.eqb ty "directory"); [|done].
  cbn zeta. do 2 f_equal. apply imap_ext. intros i child Hchild.
  rewrite Forall_forall in IH. apply IH.
  apply (sorted_children_elem_of (Node nm ty cs)).
  by eapply list_elem_of_lookup_2.
Qed.

(** X20.  The closing connector goes to the last child in the order of
    display, whether or not it is printed: when hidden names are left out
    and the name of that child starts with a dot, every line below the first
    is drawn with the inner connector or continues an inner branch, and none
    is drawn with the closing connector at the level of the children. *)
Theorem print_tree_hidden_last_child (self c : node) (indent : nat)
    (is_last_child : bool) (prefix line : string) :
  last (sorted_children self) = Some c →
  startswith (name c) "." = true →
  line ∈ tail (print_tree self indent false is_last_child prefix) →
  let new_prefix :=
    prefix +:+ (if is_last_child then prefix_last else prefix_inner) in
  (∃ rest, line = new_prefix +:+ connector_inner +:+ rest
           ∨ line = new_prefix +:+ prefix_inner +:+ rest)
  ∧ ∀ rest, line ≠ new_prefix +:+ connector_last +:+ rest.
Proof.
  intros Hlast Hdot Hline new_prefix.
  assert (∃ rest, line = new_prefix +:+ connector_inner +:+ rest
                  ∨ line = new_prefix +:+ prefix_inner +:+ rest) as Hinner.
  { rewrite print_tree_eq in Hline.
    destruct (negb false && startswith _ ".");
      [by apply elem_of_nil in Hline|].
    destruct (String.eqb _ "file"); [by apply elem_of_nil in Hline|].
    destruct (String.eqb _ "directory"); [|by apply elem_of_nil in Hline].
    cbn [tail] in Hline.
    apply elem_of_concat_imap in Hline as (i & child & Hchild & Hline).
    destruct (Nat.eqb_spec i (length (sorted_children self) - 1)) as [->|_].
    - rewrite last_lookup, <-Nat.sub_1_r, Hchild in Hlast.
      injection Hlast as ->.
      rewrite print_tree_hidden in Hline by done.
      by apply elem_of_nil in Hline.
    - by apply print_tree_inner in Hline. }
  split; [done|]. intros rest ->.
  destruct Hinner as [rest' [Heq|Heq]];
    apply (inj (String.app new_prefix)) in Heq; discriminate.
Qed.
End RendererOutput.

Lemma print_tree_line_per_node_witness :
  length (@print_tree sample_host sample_tree 0 false true "")
  = node_count sample_tree.
Proof.
  apply (@print_tree_line_per_node sample_host sample_tree 0 false true "").
  - reflexivity.
  - intros _. split; reflexivity.
Defined.

Lemma print_tree_lines_start_with_prefix_witness :
  ∃ rest,
    ("> " +:+ prefix_last +:+ prefix_inner) +:+ connector_last +:+ file_icon
      +:+ "notes.md"
    = "> " +:+ rest.
Proof.
  apply (@print_tree_lines_start_with_prefix sample_host sample_tree 0 false
           true "> ").
  apply (bool_decide_unpack _). vm_compute. exact I.
Defined.

Lemma print_tree_hidden_last_child_witness :
  let line := "   " +:+ connector_inner +:+ directory_icon +:+ "src" in
  let new_prefix := "" +:+ prefix_last in
  (∃ rest, line = new_prefix +:+ connector_inner +:+ rest
           ∨ line = new_prefix +:+ prefix_inner +:+ rest)
  ∧ ∀ rest, line ≠ new_prefix +:+ connector_last +:+ rest.
Proof.
  apply (@print_tree_hidden_last_child sample_host dotfile_tree
           (Node ".env" "file" []) 0 true "").
  - reflexivity.
  - reflexivity.
  - apply (bool_decide_unpack _). vm_compute. exact I.
Defined.
